(** * llvm-html: the driver, the annotation writer, the diagnostic handler
      and the CSS inliner of [llvm-html.cpp], as a shallow embedding.

    Texts ([std::string], [StringRef], what is sent to a [raw_ostream]) are
    lists of characters.  The LLVM library the tool links against (bitcode
    reader, materialisation, the printers) is taken as a record of
    operations; what the tool itself computes is written out. *)

From Stdlib Require Import String Ascii List Bool Arith ZArith Lia.
From Stdlib Require Import DecimalString DecimalNat.
Import ListNotations.

Set Implicit Arguments.

Local Open Scope char_scope.
Local Open Scope nat_scope.
Local Open Scope list_scope.

(** ** Texts *)

Definition text := list ascii.

(** A string literal of the source. *)
Definition txt (s : string) : text := list_ascii_of_string s.

(** The character written ['\n'] in the source. *)
Definition NL : ascii := "010".
(** Carriage return. *)
Definition CR : ascii := "013".

Fixpoint text_eqb (a b : text) : bool :=
  match a, b with
  | [], [] => true
  | x :: a', y :: b' => Ascii.eqb x y && text_eqb a' b'
  | _, _ => false
  end.

(** [std::string::empty]. *)
Definition empty (s : text) : bool :=
  match s with
  | [] => true
  | _ :: _ => false
  end.

(** [StringRef::startswith]. *)
Fixpoint startswith (s pre : text) {struct pre} : bool :=
  match pre, s with
  | [], _ => true
  | c :: pre', x :: s' => Ascii.eqb x c && startswith s' pre'
  | _ :: _, [] => false
  end.

(** [StringRef::endswith]. *)
Definition endswith (s suf : text) : bool :=
  startswith (rev s) (rev suf).

(** [StringRef::drop_back]. *)
Definition drop_back (n : nat) (s : text) : text :=
  firstn (length s - n) s.

(** [needle] occurs somewhere in [hay]. *)
Fixpoint occurs (needle hay : text) : bool :=
  startswith hay needle ||
  match hay with
  | [] => false
  | _ :: hay' => occurs needle hay'
  end.

(** [std::to_string] on an unsigned value, and [operator<<] on one:
    the decimal digits, no sign, no padding. *)
Definition to_string (n : nat) : text :=
  list_ascii_of_string (NilEmpty.string_of_uint (Nat.to_uint n)).

(** ** The CSS inliner

    [inlineCSS] sends [std::regex_replace(Out, std::regex("<link.*>"), R)] to
    the stream.  The regular expression uses the default (ECMAScript)
    grammar, the replacement the default flags: every match is replaced, and
    [R] is a format string in which [$] introduces an escape. *)

Module Regex.

(** The pieces the pattern is made of: a literal character, or [.*]. *)
Inductive atom : Type :=
| Chr (c : ascii)
| AnyStar.

(** [.] of the ECMAScript grammar on [char]: any character but a line
    terminator. *)
Definition is_line_terminator (c : ascii) : bool :=
  Ascii.eqb c NL || Ascii.eqb c CR.

(** The backtracking matcher anchored at the start of [s]: the matched text
    and what follows it.  [.*] is greedy: it first takes one more character
    and gives it back only when the rest of the pattern then fails. *)
Fixpoint match_at (pat : list atom) (s : text) {struct pat}
  : option (text * text) :=
  match pat with
  | [] => Some ([], s)
  | Chr c :: pat' =>
      match s with
      | x :: s' =>
          if Ascii.eqb x c then
            match match_at pat' s' with
            | Some (m, r) => Some (x :: m, r)
            | None => None
            end
          else None
      | [] => None
      end
  | AnyStar :: pat' =>
      (fix star (s : text) : option (text * text) :=
         match s with
         | x :: s' =>
             if is_line_terminator x then match_at pat' s
             else
               match star s' with
               | Some (m, r) => Some (x :: m, r)
               | None => match_at pat' s
               end
         | [] => match_at pat' s
         end) s
  end.

(** [std::regex_search]: the leftmost position at which the pattern
    matches; the result is (prefix, match, suffix). *)
Fixpoint regex_search (pat : list atom) (s : text)
  : option (text * text * text) :=
  match match_at pat s with
  | Some (m, r) => Some ([], m, r)
  | None =>
      match s with
      | [] => None
      | x :: s' =>
          match regex_search pat s' with
          | Some (p, m, r) => Some (x :: p, m, r)
          | None => None
          end
      end
  end.

Definition is_digit (c : ascii) : bool :=
  let n := nat_of_ascii c in (48 <=? n) && (n <=? 57).

Definition digit_value (c : ascii) : nat := nat_of_ascii c - 48.

(** Sub-match [n] of a pattern without groups: number 0 is the whole
    match, any other one is empty. *)
Definition submatch (mat : text) (n : nat) : text :=
  match n with
  | O => mat
  | S _ => []
  end.

(** [match_results::format] with the ECMAScript rules. *)
Fixpoint format (fmt pre mat suf : text) {struct fmt} : text :=
  match fmt with
  | [] => []
  | c :: rest =>
      if Ascii.eqb c "$" then
        match rest with
        | [] => ["$"]
        | d :: r =>
            if Ascii.eqb d "$" then "$" :: format r pre mat suf
            else if Ascii.eqb d "&" then mat ++ format r pre mat suf
            else if Ascii.eqb d "`" then pre ++ format r pre mat suf
            else if Ascii.eqb d "'" then suf ++ format r pre mat suf
            else if is_digit d then
              match r with
              | d2 :: r2 =>
                  if is_digit d2
                  then submatch mat (10 * digit_value d + digit_value d2)
                         ++ format r2 pre mat suf
                  else submatch mat (digit_value d) ++ format r pre mat suf
              | [] => submatch mat (digit_value d)
              end
            else "$" :: format rest pre mat suf
        end
      else c :: format rest pre mat suf
  end.

(** The loop of [std::regex_replace] over the matches of a
    [regex_iterator]: the text before each match, the formatted
    replacement, and at the end what follows the last match.  The next
    search starts where the previous match ended.  [fuel] bounds the number
    of matches. *)
Fixpoint regex_replace_loop (fuel : nat) (pat : list atom) (s fmt : text)
  : text :=
  match fuel with
  | O => s
  | S fuel' =>
      match regex_search pat s with
      | None => s
      | Some (p, m, r) =>
          p ++ format fmt p m r ++ regex_replace_loop fuel' pat r fmt
      end
  end.

(** A match of a pattern that cannot match the empty text takes at least
    one character, so there are at most [length s] matches. *)
Definition regex_replace (s : text) (pat : list atom) (fmt : text) : text :=
  regex_replace_loop (S (length s)) pat s fmt.

(** The number of matches the iterator finds. *)
Fixpoint count_matches_loop (fuel : nat) (pat : list atom) (s : text)
  : nat :=
  match fuel with
  | O => 0
  | S fuel' =>
      match regex_search pat s with
      | None => 0
      | Some (_, _, r) => S (count_matches_loop fuel' pat r)
      end
  end.

Definition count_matches (pat : list atom) (s : text) : nat :=
  count_matches_loop (S (length s)) pat s.

End Regex.

(** [std::regex("<link.*>")]. *)
Definition link_regex : list Regex.atom :=
  [Regex.Chr "<"; Regex.Chr "l"; Regex.Chr "i"; Regex.Chr "n"; Regex.Chr "k";
   Regex.AnyStar; Regex.Chr ">"].

(** [ReplacementString] of [inlineCSS]. *)
Definition ReplacementString (CSS : text) : text :=
  (txt "<style> " ++ [NL]) ++ CSS ++ (txt "</style> " ++ [NL]).

(** [inlineCSS]: what is sent to [OS]. *)
Definition inlineCSS (Out CSS : text) : text :=
  Regex.regex_replace Out link_regex (ReplacementString CSS).

(** ** What a placeholder is

    Independently of the matcher: a stylesheet-link placeholder is the text
    [<link], then characters none of which is a line terminator, then [>]. *)

Definition is_placeholder (m : text) : Prop :=
  exists mid,
    m = txt "<link" ++ mid ++ txt ">"
    /\ Forall (fun c => Regex.is_line_terminator c = false) mid.

Definition has_placeholder (s : text) : Prop :=
  exists p m r, s = p ++ m ++ r /\ is_placeholder m.

(** [>] comes in [t] before any line terminator. *)
Fixpoint gt_on_line (t : text) : bool :=
  match t with
  | [] => false
  | c :: t' =>
      if Ascii.eqb c ">" then true
      else if Regex.is_line_terminator c then false
      else gt_on_line t'
  end.

(** [s] without the prefix [pre], when it starts with it. *)
Fixpoint strip_prefix (pre s : text) {struct pre} : option text :=
  match pre with
  | [] => Some s
  | c :: pre' =>
      match s with
      | x :: s' => if Ascii.eqb x c then strip_prefix pre' s' else None
      | [] => None
      end
  end.

(** A placeholder starts at the first character of [s]. *)
Definition placeholder_at (s : text) : bool :=
  match strip_prefix (txt "<link") s with
  | Some t => gt_on_line t
  | None => false
  end.

(** A placeholder starts somewhere in [s]. *)
Fixpoint has_placeholderb (s : text) : bool :=
  placeholder_at s ||
  match s with
  | [] => false
  | _ :: s' => has_placeholderb s'
  end.

(** No placeholder starts at a position of [a] in [a ++ b]. *)
Fixpoint front_clear (a b : text) : bool :=
  match a with
  | [] => true
  | _ :: a' => negb (placeholder_at (a ++ b)) && front_clear a' b
  end.

(** [.*>] anchored at the start of [t]. *)
Definition star_gt (t : text) : option (text * text) :=
  Regex.match_at [Regex.AnyStar; Regex.Chr ">"] t.

(** ** The debug-location formatter *)

(** A [DILocation] node: line, column and, when the code was inlined, the
    location it was inlined at.  The nodes are immutable metadata and an
    inlined-at chain ends, so a location is a value of this type. *)
Inductive DILocation : Type :=
| Loc (Line Col : nat)
| InlinedLoc (Line Col : nat) (InlinedAt : DILocation).

Definition getLine (DL : DILocation) : nat :=
  match DL with Loc l _ | InlinedLoc l _ _ => l end.
Definition getCol (DL : DILocation) : nat :=
  match DL with Loc _ c | InlinedLoc _ c _ => c end.
Definition getInlinedAt (DL : DILocation) : option DILocation :=
  match DL with Loc _ _ => None | InlinedLoc _ _ IDL => Some IDL end.

(** [printDebugLoc]: what is sent to [OS]. *)
Fixpoint printDebugLoc (DL : DILocation) : text :=
  (to_string (getLine DL) ++ txt ":" ++ to_string (getCol DL)) ++
  match DL with
  | InlinedLoc _ _ IDL => txt "@" ++ printDebugLoc IDL
  | Loc _ _ => []
  end.

(** One location of a chain: ["line:col"]. *)
Definition line_col (DL : DILocation) : text :=
  to_string (getLine DL) ++ txt ":" ++ to_string (getCol DL).

(** The locations of a chain, the innermost first. *)
Fixpoint inlined_chain (DL : DILocation) : list DILocation :=
  DL :: match DL with
        | InlinedLoc _ _ IDL => inlined_chain IDL
        | Loc _ _ => []
        end.

(** [sep] between the elements of [l]. *)
Fixpoint join (sep : text) (l : list text) : text :=
  match l with
  | [] => []
  | [x] => x
  | x :: l' => x ++ sep ++ join sep l'
  end.

(** ** The annotation writer *)

(** What is done to a [formatted_raw_ostream]: [PadToColumn], or [<<] of a
    text. *)
Inductive os_op : Type :=
| PadToColumn (NewCol : nat)
| Put (t : text).

(** The text of the [<<] operations, in order. *)
Fixpoint emitted (ops : list os_op) : text :=
  match ops with
  | [] => []
  | PadToColumn _ :: ops' => emitted ops'
  | Put t :: ops' => t ++ emitted ops'
  end.

(** The number of [PadToColumn] calls. *)
Fixpoint pad_count (ops : list os_op) : nat :=
  match ops with
  | [] => 0
  | PadToColumn _ :: ops' => S (pad_count ops')
  | Put _ :: ops' => pad_count ops'
  end.

(** A [Type] as the annotation writer sees it. *)
Record IRType : Type := mkIRType {
  isVoidTy : bool;
  printType : text            (* [OS << *V.getType()] *)
}.

(** What [dyn_cast<DbgDeclareInst>] and [dyn_cast<DbgValueInst>] tell of an
    instruction, with [getVariable()->getName()]. *)
Inductive InstKind : Type :=
| DbgDeclareInst (VariableName : text)
| DbgValueInst (VariableName : text)
| OtherInst.

Record Instruction : Type := mkInstruction {
  getDebugLoc : option DILocation;   (* a null [DebugLoc] is [None] *)
  instKind : InstKind
}.

Record Value : Type := mkValue {
  getType : IRType;
  getNumUses : nat;
  asInstruction : option Instruction  (* [dyn_cast<Instruction>(&V)] *)
}.

(** [CommentWriter::emitFunctionAnnot], given [F->getNumUses()]. *)
Definition emitFunctionAnnot (FNumUses : nat) : list os_op :=
  [Put (txt "; [#uses=" ++ to_string FNumUses ++ txt "]"); Put [NL]].

(** [CommentWriter::printInfoComment]: the operations on [OS], in order.
    [Padded] is threaded as in the source. *)
Definition printInfoComment (V : Value) : list os_op :=
  let Padded := false in
  let '(Padded, OS) :=
    if negb (isVoidTy (getType V)) then
      (true,
       [PadToColumn 50;
        Put (txt "; [#uses=" ++ to_string (getNumUses V) ++ txt " type="
             ++ printType (getType V) ++ txt "]")])
    else (Padded, []) in
  match asInstruction V with
  | Some Inst =>
      let '(Padded, OS) :=
        match getDebugLoc Inst with
        | Some DL =>
            let '(Padded, OS) :=
              if negb Padded
              then (true, OS ++ [PadToColumn 50; Put (txt ";")])
              else (Padded, OS) in
            (Padded,
             OS ++ [Put (txt " [debug line = "); Put (printDebugLoc DL);
                    Put (txt "]")])
        | None => (Padded, OS)
        end in
      match instKind Inst with
      | DbgDeclareInst Name =>
          (if negb Padded then OS ++ [PadToColumn 50; Put (txt ";")] else OS)
          ++ [Put (txt " [debug variable = " ++ Name ++ txt "]")]
      | DbgValueInst Name =>
          (if negb Padded then OS ++ [PadToColumn 50; Put (txt ";")] else OS)
          ++ [Put (txt " [debug variable = " ++ Name ++ txt "]")]
      | OtherInst => OS
      end
  | None => OS
  end.

(** The three fragments of the comment of a value, each empty when it does
    not apply. *)
Definition uses_fragment (V : Value) : text :=
  if isVoidTy (getType V) then []
  else txt " [#uses=" ++ to_string (getNumUses V) ++ txt " type="
       ++ printType (getType V) ++ txt "]".

Definition debug_line_fragment (V : Value) : text :=
  match asInstruction V with
  | Some Inst =>
      match getDebugLoc Inst with
      | Some DL => txt " [debug line = " ++ printDebugLoc DL ++ txt "]"
      | None => []
      end
  | None => []
  end.

Definition debug_variable_fragment (V : Value) : text :=
  match asInstruction V with
  | Some Inst =>
      match instKind Inst with
      | DbgDeclareInst Name | DbgValueInst Name =>
          txt " [debug variable = " ++ Name ++ txt "]"
      | OtherInst => []
      end
  | None => []
  end.

(** A non-void instruction with a debug location: [%x = add i32 ...], used
    twice, at line 3, column 7. *)
Definition add_at_3_7 : Value :=
  mkValue (mkIRType false (txt "i32")) 2
          (Some (mkInstruction (Some (Loc 3 7)) OtherInst)).

(** A call of [llvm.dbg.declare] for the variable [x], without a debug
    location. *)
Definition dbg_declare_x : Value :=
  mkValue (mkIRType true (txt "void")) 0
          (Some (mkInstruction None (DbgDeclareInst (txt "x")))).

(** The callbacks a printer is given ([AssemblyAnnotationWriter]). *)
Record AssemblyAnnotationWriter : Type := {
  aaw_emitFunctionAnnot : nat -> list os_op;
  aaw_printInfoComment : Value -> list os_op
}.

Definition CommentWriter : AssemblyAnnotationWriter :=
  {| aaw_emitFunctionAnnot := emitFunctionAnnot;
     aaw_printInfoComment := printInfoComment |}.

(** ** What the process does: events and early exit *)

(** The colours [WithColor] is asked for. *)
Inductive HighlightColor : Type := HC_Error | HC_Warning | HC_Note.

Inductive event : Type :=
| Errs (color : option HighlightColor) (t : text)   (* written to [errs()] *)
| ReadInput (Filename : text)          (* [MemoryBuffer::getFileOrSTDIN] *)
| Call_getLazyModule                   (* [MB.getLazyModule] is called *)
| Call_materializeMetadata             (* [M->materializeMetadata] is called *)
| Call_materializeAll                  (* [M->materializeAll] is called *)
| OpenOutput (Filename : text)         (* a [ToolOutputFile] is created *)
| Call_HTMLWriter_print                (* [HTMLW.print] is called *)
| Write (Filename : text) (t : text)   (* written to [Out->os()] *)
| Keep (Filename : text).              (* [Out->keep()] *)

(** A computation either goes on with a value or ends the process with an
    exit status ([exit], or [return] from [main]). *)
Inductive result (A : Type) : Type :=
| Ok (a : A)
| Exited (code : Z).
Arguments Ok {A} a.
Arguments Exited {A} code.

Definition Run (A : Type) : Type := list event * result A.

Definition ret {A} (a : A) : Run A := ([], Ok a).

Definition bind {A B} (m : Run A) (f : A -> Run B) : Run B :=
  match m with
  | (t, Ok a) => let '(t', r) := f a in (t ++ t', r)
  | (t, Exited c) => (t, Exited c)
  end.

Definition emit (e : event) : Run unit := ([e], Ok tt).

Definition exit {A} (code : Z) : Run A := ([], Exited code).

Declare Scope run_scope.
Delimit Scope run_scope with run.
Notation "x <- m ;; k" := (bind m (fun x => k))
  (at level 61, m at next level, right associativity) : run_scope.
Notation "m ;; k" := (bind m (fun _ => k))
  (at level 61, right associativity) : run_scope.
Local Open Scope run_scope.

(** ** The diagnostic handler *)

Inductive DiagnosticSeverity : Type := DS_Error | DS_Warning | DS_Remark | DS_Note.

Record DiagnosticInfo : Type := mkDiagnosticInfo {
  getSeverity : DiagnosticSeverity;
  diagMessage : text           (* what [DI.print(DP)] writes *)
}.

(** [WithColor::error], [WithColor::warning] and [WithColor::note] on a
    stream: the label, in its colour. *)
Definition WithColor_error : Run unit := emit (Errs (Some HC_Error) (txt "error: ")).
Definition WithColor_warning : Run unit := emit (Errs (Some HC_Warning) (txt "warning: ")).
Definition WithColor_note : Run unit := emit (Errs (Some HC_Note) (txt "note: ")).

(** [LLVMHtmlDiagnosticHandler::handleDiagnostics]. *)
Definition handleDiagnostics (Prefix : text) (DI : DiagnosticInfo) : Run bool :=
  emit (Errs None (Prefix ++ txt ": ")) ;;
  match getSeverity DI with
  | DS_Error => WithColor_error
  | DS_Warning => WithColor_warning
  | DS_Remark => emit (Errs None (txt "remark: "))
  | DS_Note => WithColor_note
  end ;;
  emit (Errs None (diagMessage DI)) ;;
  emit (Errs None [NL]) ;;
  match getSeverity DI with
  | DS_Error => exit 1
  | _ => ret true
  end.

(** The label of a severity and the colour it is written in. *)
Definition severity_label (s : DiagnosticSeverity)
  : option HighlightColor * text :=
  match s with
  | DS_Error => (Some HC_Error, txt "error: ")
  | DS_Warning => (Some HC_Warning, txt "warning: ")
  | DS_Remark => (None, txt "remark: ")
  | DS_Note => (Some HC_Note, txt "note: ")
  end.

(** ** The driver *)

(** The command line, after [cl::ParseCommandLineOptions]. *)
Record Options : Type := mkOptions {
  InputFilenames : list text;          (* positional *)
  OutputFilename : text;               (* -o; empty when not given *)
  Force : bool;                        (* -f *)
  DontPrint : bool;                    (* --disable-output *)
  SetImporting : bool;                 (* --set-importing *)
  ShowAnnotations : bool;              (* --show-annotations *)
  PreserveAssemblyUseListOrder : bool; (* --preserve-ll-uselistorder *)
  MaterializeMetadata : bool;          (* --materialize-metadata *)
  PrintThinLTOIndexOnly : bool         (* --print-thinlto-index-only *)
}.

(** [Expected<T>] and [ErrorOr<T>]: a value, or the message of an error. *)
Inductive Expected (A : Type) : Type :=
| Success (a : A)
| Failure (message : text).
Arguments Success {A} a.
Arguments Failure {A} message.

Record BitcodeLTOInfo : Type := mkBitcodeLTOInfo {
  HasSummary : bool
}.

(** The name of the output of module [I] of [N] read from [InputFilename]:
    the variable [FinalFilename] of [main] when the [ToolOutputFile] is
    created. *)
Definition FinalFilename (opts : Options) (InputFilename : text) (N I : nat)
  : text :=
  let FinalFilename := OutputFilename opts in
  let FinalFilename := if DontPrint opts then txt "-" else FinalFilename in
  if empty FinalFilename then
    if text_eqb InputFilename (txt "-") then txt "-"
    else
      let IFN := InputFilename in
      let FinalFilename :=
        if endswith IFN (txt ".bc") then drop_back 3 IFN else IFN in
      let FinalFilename :=
        if 1 <? N then FinalFilename ++ (txt "." ++ to_string I)
        else FinalFilename in
      FinalFilename ++ txt ".html"
  else
    if 1 <? N then FinalFilename ++ (txt "." ++ to_string I)
    else FinalFilename.

Section Driver.

(** The values of the LLVM library the driver only hands on. *)
Variables MemoryBuffer BitcodeModule Module ModuleSummaryIndex : Type.

(** The operations of the library and of the system.  The loader reports
    diagnostics to the handler of the context while it runs, then returns.
    [HTMLWriter_print] is [HTMLWriter::print], of [HTMLAsmWriter.cpp]: the
    body text and the CSS text it sends to its two streams. *)
Record LLVM : Type := mkLLVM {
  getFileOrSTDIN : text -> Expected MemoryBuffer;
  getBitcodeFileContents : MemoryBuffer -> Expected (list BitcodeModule);
  getLazyModule :
    BitcodeModule -> bool -> bool -> list DiagnosticInfo * Expected Module;
  materializeMetadata : Module -> list DiagnosticInfo * Expected Module;
  materializeAll : Module -> list DiagnosticInfo * Expected Module;
  getLTOInfo : BitcodeModule -> Expected BitcodeLTOInfo;
  getSummary : BitcodeModule -> Expected ModuleSummaryIndex;
  HTMLWriter_print :
    Module -> option AssemblyAnnotationWriter -> bool -> text * text;
  Index_print : ModuleSummaryIndex -> text;
  ToolOutputFile_open : text -> option text   (* the message of [EC] *)
}.

Variable llvm : LLVM.
Variable argv0 : text.
Variable opts : Options.

(** [ExitOnErr], with the banner [main] sets. *)
Definition ExitOnErr {A} (e : Expected A) : Run A :=
  match e with
  | Success a => ret a
  | Failure message =>
      emit (Errs None ((argv0 ++ txt ": error: ") ++ message ++ [NL])) ;;
      exit 1
  end.

(** The diagnostics of a call go through the handler of the context. *)
Fixpoint diagnose (ds : list DiagnosticInfo) : Run unit :=
  match ds with
  | [] => ret tt
  | DI :: ds' => handleDiagnostics argv0 DI ;; diagnose ds'
  end.

Definition in_context {A} (call : list DiagnosticInfo * Expected A)
  : Run (Expected A) :=
  diagnose (fst call) ;; ret (snd call).

(** The body of the loop over the modules of one input. *)
Definition process_module (InputFilename : text) (N I : nat)
           (MB : BitcodeModule) : Run unit :=
  M <- (if negb (PrintThinLTOIndexOnly opts) then
          emit Call_getLazyModule ;;
          e <- in_context (getLazyModule llvm MB (MaterializeMetadata opts)
                                         (SetImporting opts)) ;;
          M <- ExitOnErr e ;;
          if MaterializeMetadata opts then
            emit Call_materializeMetadata ;;
            e <- in_context (materializeMetadata llvm M) ;;
            M <- ExitOnErr e ;;
            ret (Some M)
          else
            emit Call_materializeAll ;;
            e <- in_context (materializeAll llvm M) ;;
            M <- ExitOnErr e ;;
            ret (Some M)
        else ret None) ;;
  LTOInfo <- ExitOnErr (getLTOInfo llvm MB) ;;
  Index <- (if HasSummary LTOInfo then
              Index <- ExitOnErr (getSummary llvm MB) ;; ret (Some Index)
            else ret None) ;;
  let FinalFilename := FinalFilename opts InputFilename N I in
  emit (OpenOutput FinalFilename) ;;
  match ToolOutputFile_open llvm FinalFilename with
  | Some message =>
      emit (Errs None (message ++ [NL])) ;;
      exit 1
  | None =>
      let Annotator :=
        if ShowAnnotations opts then Some CommentWriter else None in
      Outs <- (if negb (DontPrint opts) then
                 Outs <- match M with
                         | Some M =>
                             emit Call_HTMLWriter_print ;;
                             ret (HTMLWriter_print llvm M Annotator
                                    (PreserveAssemblyUseListOrder opts))
                         | None => ret ([], [])
                         end ;;
                 match Index with
                 | Some Index =>
                     emit (Write FinalFilename (Index_print llvm Index))
                 | None => ret tt
                 end ;;
                 ret Outs
               else ret ([], [])) ;;
      emit (Write FinalFilename (inlineCSS (fst Outs) (snd Outs))) ;;
      emit (Keep FinalFilename)
  end.

(** [for (size_t I = 0; I < N; ++I)] over [IF.Mods], from index [I] on. *)
Fixpoint for_modules (InputFilename : text) (N I : nat)
         (Mods : list BitcodeModule) : Run unit :=
  match Mods with
  | [] => ret tt
  | MB :: Mods' =>
      process_module InputFilename N I MB ;;
      for_modules InputFilename N (S I) Mods'
  end.

(** The body of the loop over the input files. *)
Definition process_input (InputFilename : text) : Run unit :=
  emit (ReadInput InputFilename) ;;
  match getFileOrSTDIN llvm InputFilename with
  | Failure message =>
      WithColor_error ;;
      emit (Errs None (InputFilename ++ txt ": " ++ message ++ [NL])) ;;
      exit 1
  | Success MB =>
      Mods <- ExitOnErr (getBitcodeFileContents llvm MB) ;;
      let N := length Mods in
      (if text_eqb (OutputFilename opts) (txt "-") && (1 <? N) then
         emit (Errs None
                 (txt "only single module bitcode files can be written to stdout"
                  ++ [NL]))
       else ret tt) ;;
      for_modules InputFilename N 0 Mods
  end.

Fixpoint for_inputs (Inputs : list text) : Run unit :=
  match Inputs with
  | [] => ret tt
  | InputFilename :: Inputs' =>
      process_input InputFilename ;; for_inputs Inputs'
  end.

(** [main], from after the command line is parsed: what the process does
    and its exit status. *)
Definition main : list event * Z :=
  let run :=
    if length (InputFilenames opts) <? 1 then
      for_inputs (InputFilenames opts ++ [txt "-"])
    else if (1 <? length (InputFilenames opts))
            && negb (empty (OutputFilename opts))
    then
      emit (Errs None
              (txt "error: output file name cannot be set for multiple input files"
               ++ [NL])) ;;
      exit 1
    else for_inputs (InputFilenames opts) in
  match run with
  | (t, Ok _) => (t, 0%Z)
  | (t, Exited code) => (t, code)
  end.

End Driver.

(** ** A small instance of the library

    Enough of a bitcode reader to run the driver on: a file is the list of
    its modules, loading never fails, and a module carries the texts its
    printers produce. *)

Record ToyModule : Type := mkToyModule {
  toy_body : text;
  toy_css : text;
  toy_summary : option text
}.

Definition toy_llvm (files : text -> option (list ToyModule))
  : LLVM (list ToyModule) ToyModule ToyModule text :=
  {| getFileOrSTDIN := fun name =>
       match files name with
       | Some Mods => Success Mods
       | None => Failure (txt "No such file or directory")
       end;
     getBitcodeFileContents := fun MB => Success MB;
     getLazyModule := fun MB _ _ => ([], Success MB);
     materializeMetadata := fun M => ([], Success M);
     materializeAll := fun M => ([], Success M);
     getLTOInfo := fun MB =>
       Success (mkBitcodeLTOInfo
                  (match toy_summary MB with Some _ => true | None => false end));
     getSummary := fun MB =>
       match toy_summary MB with
       | Some t => Success t
       | None => Failure (txt "no summary")
       end;
     HTMLWriter_print := fun M _ _ => (toy_body M, toy_css M);
     Index_print := fun Index => Index;
     ToolOutputFile_open := fun _ => None |}.

(** A command line with no option set. *)
Definition no_options (Inputs : list text) : Options :=
  {| InputFilenames := Inputs;
     OutputFilename := [];
     Force := false;
     DontPrint := false;
     SetImporting := false;
     ShowAnnotations := false;
     PreserveAssemblyUseListOrder := false;
     MaterializeMetadata := false;
     PrintThinLTOIndexOnly := false |}.

Definition with_output (o : text) (opts : Options) : Options :=
  {| InputFilenames := InputFilenames opts;
     OutputFilename := o;
     Force := Force opts;
     DontPrint := DontPrint opts;
     SetImporting := SetImporting opts;
     ShowAnnotations := ShowAnnotations opts;
     PreserveAssemblyUseListOrder := PreserveAssemblyUseListOrder opts;
     MaterializeMetadata := MaterializeMetadata opts;
     PrintThinLTOIndexOnly := PrintThinLTOIndexOnly opts |}.

Definition with_disable_output (opts : Options) : Options :=
  {| InputFilenames := InputFilenames opts;
     OutputFilename := OutputFilename opts;
     Force := Force opts;
     DontPrint := true;
     SetImporting := SetImporting opts;
     ShowAnnotations := ShowAnnotations opts;
     PreserveAssemblyUseListOrder := PreserveAssemblyUseListOrder opts;
     MaterializeMetadata := MaterializeMetadata opts;
     PrintThinLTOIndexOnly := PrintThinLTOIndexOnly opts |}.

Definition with_index_only (opts : Options) : Options :=
  {| InputFilenames := InputFilenames opts;
     OutputFilename := OutputFilename opts;
     Force := Force opts;
     DontPrint := DontPrint opts;
     SetImporting := SetImporting opts;
     ShowAnnotations := ShowAnnotations opts;
     PreserveAssemblyUseListOrder := PreserveAssemblyUseListOrder opts;
     MaterializeMetadata := MaterializeMetadata opts;
     PrintThinLTOIndexOnly := true |}.

(** The events that are calls on a module: loading, materialising,
    printing. *)
Definition is_module_call (e : event) : bool :=
  match e with
  | Call_getLazyModule | Call_materializeMetadata | Call_materializeAll
  | Call_HTMLWriter_print => true
  | _ => false
  end.

(** What was written to the output named [F], in order. *)
Fixpoint written_to (F : text) (t : list event) : text :=
  match t with
  | [] => []
  | Write F' x :: t' =>
      if text_eqb F' F then x ++ written_to F t' else written_to F t'
  | _ :: t' => written_to F t'
  end.

(** Two modules, the second with a summary index. *)
Definition toy_plain : ToyModule :=
  mkToyModule (txt "<html><link rel=stylesheet></html>") (txt "a{}") None.
Definition toy_with_summary : ToyModule :=
  mkToyModule (txt "<html>define</html>") (txt "b{}") (Some (txt "^0 = module"))
.

(** ** Notions used to state what a run does *)

Definition with_inputs (Inputs : list text) (opts : Options) : Options :=
  {| InputFilenames := Inputs;
     OutputFilename := OutputFilename opts;
     Force := Force opts;
     DontPrint := DontPrint opts;
     SetImporting := SetImporting opts;
     ShowAnnotations := ShowAnnotations opts;
     PreserveAssemblyUseListOrder := PreserveAssemblyUseListOrder opts;
     MaterializeMetadata := MaterializeMetadata opts;
     PrintThinLTOIndexOnly := PrintThinLTOIndexOnly opts |}.

Definition with_materialize_metadata (opts : Options) : Options :=
  {| InputFilenames := InputFilenames opts;
     OutputFilename := OutputFilename opts;
     Force := Force opts;
     DontPrint := DontPrint opts;
     SetImporting := SetImporting opts;
     ShowAnnotations := ShowAnnotations opts;
     PreserveAssemblyUseListOrder := PreserveAssemblyUseListOrder opts;
     MaterializeMetadata := true;
     PrintThinLTOIndexOnly := PrintThinLTOIndexOnly opts |}.

(** Every event of a computation satisfies [P], and when the computation
    ends the process it does so with status 1. *)
Definition run_holds (P : event -> Prop) {A} (m : Run A) : Prop :=
  Forall P (fst m) /\ forall code, snd m = Exited code -> code = 1%Z.

(** The names given to [getFileOrSTDIN], in order. *)
Fixpoint inputs_read (t : list event) : list text :=
  match t with
  | [] => []
  | ReadInput f :: t' => f :: inputs_read t'
  | _ :: t' => inputs_read t'
  end.

(** The discipline of the outputs.  [pending] is the output that is open and
    not yet kept.  An output is opened only when none is pending; [Write]
    and [Keep] go to the pending output; [Keep] ends it.  The result is the
    output left pending, or [None] when an event breaks the discipline. *)
Fixpoint outputs_ok (pending : option text) (t : list event)
  : option (option text) :=
  match t with
  | [] => Some pending
  | OpenOutput F :: t' =>
      match pending with
      | None => outputs_ok (Some F) t'
      | Some _ => None
      end
  | Write F _ :: t' =>
      match pending with
      | Some G => if text_eqb F G then outputs_ok pending t' else None
      | None => None
      end
  | Keep F :: t' =>
      match pending with
      | Some G => if text_eqb F G then outputs_ok None t' else None
      | None => None
      end
  | _ :: t' => outputs_ok pending t'
  end.

(** From no pending output, the events of [m] keep the discipline, and no
    output is pending when [m] goes on. *)
Definition disciplined {A} (m : Run A) : Prop :=
  exists st,
    outputs_ok None (fst m) = Some st
    /\ forall a, snd m = Ok a -> st = None.

(** The names of the outputs opened, in order. *)
Fixpoint outputs_opened (t : list event) : list text :=
  match t with
  | [] => []
  | OpenOutput F :: t' => F :: outputs_opened t'
  | _ :: t' => outputs_opened t'
  end.

(** [m] opens the output [F] and no other, or ends the process before it
    opens any. *)
Definition opens_only (F : text) {A} (m : Run A) : Prop :=
  outputs_opened (fst m) = [F]
  \/ (outputs_opened (fst m) = [] /\ exists code, snd m = Exited code).

Definition is_output_event (e : event) : bool :=
  match e with
  | OpenOutput _ | Write _ _ | Keep _ => true
  | _ => false
  end.

(** What the handler writes for one diagnostic. *)
Definition report_one (Prefix : text) (DI : DiagnosticInfo) : list event :=
  [Errs None (Prefix ++ txt ": ");
   Errs (fst (severity_label (getSeverity DI)))
        (snd (severity_label (getSeverity DI)));
   Errs None (diagMessage DI);
   Errs None [NL]].

Fixpoint report (Prefix : text) (ds : list DiagnosticInfo) : list event :=
  match ds with
  | [] => []
  | DI :: ds' => report_one Prefix DI ++ report Prefix ds'
  end.

Definition is_error (DI : DiagnosticInfo) : bool :=
  match getSeverity DI with
  | DS_Error => true
  | _ => false
  end.

(** A decimal digit. *)
Definition is_decimal_digit (c : ascii) : bool :=
  existsb (Ascii.eqb c) (txt "0123456789").

(** Another small instance of the library: one file of one module that loads
    with the diagnostics [ds]; the container is malformed when [decodes] is
    false, and no output can be opened when [open_error] is a message. *)
Definition faulty_llvm (decodes : bool) (open_error : option text)
           (ds : list DiagnosticInfo)
  : LLVM unit ToyModule ToyModule text :=
  {| getFileOrSTDIN := fun _ => Success tt;
     getBitcodeFileContents := fun _ =>
       if decodes then Success [toy_plain]
       else Failure (txt "Invalid bitcode signature");
     getLazyModule := fun MB _ _ => (ds, Success MB);
     materializeMetadata := fun M => ([], Success M);
     materializeAll := fun M => ([], Success M);
     getLTOInfo := fun MB => Success (mkBitcodeLTOInfo false);
     getSummary := fun MB => Failure (txt "no summary");
     HTMLWriter_print := fun M _ _ => (toy_body M, toy_css M);
     Index_print := fun Index => Index;
     ToolOutputFile_open := fun _ => open_error |}.

(** A warning, as the loader reports it. *)
Definition a_warning : DiagnosticInfo :=
  mkDiagnosticInfo DS_Warning (txt "ignoring invalid debug info").

(** * Properties *)

Unset Implicit Arguments.

(** ** Texts *)

Lemma text_eqb_eq (a b : text) : text_eqb a b = true <-> a = b.
Proof.
  revert b; induction a as [|x a IH]; intros [|y b]; simpl;
    try (split; [discriminate | discriminate]); [tauto|].
  rewrite andb_true_iff, Ascii.eqb_eq, IH.
  split; [intros [-> ->]; reflexivity | intros H; inversion H; auto].
Qed.

Lemma text_eqb_neq (a b : text) : text_eqb a b = false <-> a <> b.
Proof.
  rewrite <- text_eqb_eq. destruct (text_eqb a b); split; congruence.
Qed.

Lemma startswith_app (s pre : text) :
  startswith s pre = true <-> exists r, s = pre ++ r.
Proof.
  revert s; induction pre as [|c pre IH]; intros s; simpl.
  - split; [intros _; exists s; reflexivity | reflexivity].
  - destruct s as [|x s].
    + split; [discriminate | intros [r H]; discriminate].
    + rewrite andb_true_iff, Ascii.eqb_eq, IH. split.
      * intros [-> [r ->]]. exists r. reflexivity.
      * intros [r H]. inversion H. split; [reflexivity | exists r; reflexivity].
Qed.

Lemma endswith_app (s suf : text) :
  endswith s suf = true <-> exists stem, s = stem ++ suf.
Proof.
  unfold endswith. rewrite startswith_app. split.
  - intros [r H]. exists (rev r).
    rewrite <- (rev_involutive s), H, rev_app_distr, rev_involutive.
    reflexivity.
  - intros [stem ->]. exists (rev stem). apply rev_app_distr.
Qed.

Lemma drop_back_app (stem suf : text) :
  drop_back (length suf) (stem ++ suf) = stem.
Proof.
  unfold drop_back. rewrite length_app.
  replace (length stem + length suf - length suf) with (length stem + 0) by lia.
  rewrite firstn_app_2. simpl. apply app_nil_r.
Qed.

Lemma to_string_inj (n m : nat) : to_string n = to_string m -> n = m.
Proof.
  unfold to_string. intros H.
  apply Unsigned.to_uint_inj.
  assert (E : Some (Nat.to_uint n) = Some (Nat.to_uint m)).
  { rewrite <- !NilEmpty.usu.
    rewrite <- (string_of_list_ascii_of_string
                  (NilEmpty.string_of_uint (Nat.to_uint n))), H.
    rewrite string_of_list_ascii_of_string. reflexivity. }
  congruence.
Qed.

(** ** The debug-location formatter *)

(** C9.  [printDebugLoc] is a total function on locations (an inlined-at
    chain is a finite value), so it returns on every location; what it writes
    is ["line:col"], followed, when the location has an inlined-at parent, by
    ["@"] and the rendering of the parent.  Over the whole chain this is the
    ["line:col"] of its locations, separated by ["@"]. *)
Theorem printDebugLoc_line_col_then_parent (DL : DILocation) :
  printDebugLoc DL
  = line_col DL ++
    match getInlinedAt DL with
    | Some IDL => txt "@" ++ printDebugLoc IDL
    | None => []
    end
  /\ printDebugLoc DL = join (txt "@") (map line_col (inlined_chain DL)).
Proof.
  split.
  - destruct DL; reflexivity.
  - induction DL as [l c | l c IDL IH].
    + simpl. apply app_nil_r.
    + change (printDebugLoc (InlinedLoc l c IDL))
        with (line_col (InlinedLoc l c IDL) ++ txt "@" ++ printDebugLoc IDL).
      rewrite IH.
      change (inlined_chain (InlinedLoc l c IDL))
        with (InlinedLoc l c IDL :: inlined_chain IDL).
      destruct IDL; reflexivity.
Qed.

Example printDebugLoc_ex :
  printDebugLoc (InlinedLoc 12 3 (InlinedLoc 40 7 (Loc 5 1))) = txt "12:3@40:7@5:1".
Proof. vm_compute. reflexivity. Qed.

(** ** The diagnostic handler *)

(** C5.  Every diagnostic is written to the error stream as the program name
    and [": "], the label of its severity (in colour for error, warning and
    note, plain for remark), the message and a newline; the process exits
    with status 1 exactly when the severity is error, and otherwise the
    handler returns [true] and execution goes on. *)
Theorem handleDiagnostics_reports_then_exits_on_error
        (Prefix : text) (DI : DiagnosticInfo) :
  fst (handleDiagnostics Prefix DI)
  = [Errs None (Prefix ++ txt ": ");
     Errs (fst (severity_label (getSeverity DI)))
          (snd (severity_label (getSeverity DI)));
     Errs None (diagMessage DI);
     Errs None [NL]]
  /\ (getSeverity DI = DS_Error <->
      snd (handleDiagnostics Prefix DI) = Exited 1%Z)
  /\ (getSeverity DI <> DS_Error <->
      snd (handleDiagnostics Prefix DI) = Ok true).
Proof.
  unfold handleDiagnostics.
  destruct (getSeverity DI); simpl; repeat split;
    intros; try reflexivity; try discriminate; congruence.
Qed.

Lemma bind_ret_l {A B} (a : A) (f : A -> Run B) : bind (ret a) f = f a.
Proof. unfold bind, ret. destruct (f a). reflexivity. Qed.

(** ** The driver: the guard on the command line *)

(** C3.  With more than one positional input and a non-empty [-o] name,
    [main] writes the error message to the error stream and returns 1: no
    input is read, no output file is created and nothing is written to
    one. *)
Theorem main_rejects_output_name_with_many_inputs
        (MemoryBuffer BitcodeModule Module ModuleSummaryIndex : Type)
        (llvm : LLVM MemoryBuffer BitcodeModule Module ModuleSummaryIndex)
        (argv0 : text) (opts : Options) :
  1 < length (InputFilenames opts) ->
  empty (OutputFilename opts) = false ->
  main llvm argv0 opts
  = ([Errs None
        (txt "error: output file name cannot be set for multiple input files"
         ++ [NL])],
     1%Z).
Proof.
  intros Hn Ho. unfold main.
  destruct (length (InputFilenames opts) <? 1) eqn:E1.
  - apply Nat.ltb_lt in E1. lia.
  - apply Nat.ltb_lt in Hn. rewrite Hn, Ho. reflexivity.
Qed.

Lemma main_rejects_output_name_with_many_inputs_witness :
  main (toy_llvm (fun _ => Some [])) (txt "llvm-html")
       (with_output (txt "out.html") (no_options [txt "a.bc"; txt "b.bc"]))
  = ([Errs None
        (txt "error: output file name cannot be set for multiple input files"
         ++ [NL])],
     1%Z).
Proof.
  apply main_rejects_output_name_with_many_inputs; simpl; [lia | reflexivity].
Defined.

(** ** The driver: the name of the output *)

Lemma indexed_names_differ (stem ext : text) (I J : nat) :
  I <> J ->
  stem ++ (txt "." ++ to_string I) ++ ext
  <> stem ++ (txt "." ++ to_string J) ++ ext.
Proof.
  intros Hne H. apply app_inv_head in H. apply app_inv_tail in H.
  apply app_inv_head in H. apply Hne, to_string_inj, H.
Qed.

(** C2, as the code has it.  For a container of more than one module, when
    [--disable-output] is not given, and unless the name is inferred from the
    standard-input sentinel (input ["-"] with no [-o] name): with a [-o]
    name, the name of module [I] is that name, a dot and the decimal index
    [I], with nothing after it; with no [-o] name, it is the input name
    without its trailing [".bc"] (when it has one), a dot, the decimal index
    [I] and [".html"].  In both cases the names of two different modules are
    different. *)
Theorem FinalFilename_indexed_and_distinct
        (opts : Options) (InputFilename : text) (N : nat) :
  1 < N ->
  DontPrint opts = false ->
  empty (OutputFilename opts) = false \/ InputFilename <> txt "-" ->
  (empty (OutputFilename opts) = false ->
   forall I, FinalFilename opts InputFilename N I
             = OutputFilename opts ++ txt "." ++ to_string I)
  /\ (empty (OutputFilename opts) = true ->
      (forall stem, InputFilename = stem ++ txt ".bc" ->
                    forall I, FinalFilename opts InputFilename N I
                              = stem ++ txt "." ++ to_string I ++ txt ".html")
      /\ ((forall stem, InputFilename <> stem ++ txt ".bc") ->
          forall I, FinalFilename opts InputFilename N I
                    = InputFilename ++ txt "." ++ to_string I ++ txt ".html"))
  /\ (forall I J, I <> J ->
                  FinalFilename opts InputFilename N I
                  <> FinalFilename opts InputFilename N J).
Proof.
  intros HN HD Hwhy. apply Nat.ltb_lt in HN.
  assert (Hexplicit :
            empty (OutputFilename opts) = false ->
            forall I, FinalFilename opts InputFilename N I
                      = OutputFilename opts ++ txt "." ++ to_string I).
  { intros EO I. unfold FinalFilename. rewrite HD, EO, HN. reflexivity. }
  assert (Hinferred :
            empty (OutputFilename opts) = true ->
            forall I, FinalFilename opts InputFilename N I
                      = (if endswith InputFilename (txt ".bc")
                         then drop_back 3 InputFilename else InputFilename)
                          ++ txt "." ++ to_string I ++ txt ".html").
  { intros EO I. destruct Hwhy as [H | H]; [congruence|].
    apply text_eqb_neq in H.
    unfold FinalFilename. rewrite HD, EO, H, HN.
    rewrite <- !app_assoc. reflexivity. }
  split; [exact Hexplicit | split].
  - intros EO. split.
    + intros stem Hstem I. rewrite (Hinferred EO I), Hstem.
      assert (E : endswith (stem ++ txt ".bc") (txt ".bc") = true)
        by (apply endswith_app; exists stem; reflexivity).
      rewrite E. change 3 with (length (txt ".bc")).
      rewrite drop_back_app. reflexivity.
    + intros Hno I. rewrite (Hinferred EO I).
      destruct (endswith InputFilename (txt ".bc")) eqn:E; [|reflexivity].
      apply endswith_app in E. destruct E as [stem E].
      exfalso. exact (Hno stem E).
  - intros I J Hne.
    destruct (empty (OutputFilename opts)) eqn:EO.
    + rewrite (Hinferred eq_refl I), (Hinferred eq_refl J).
      apply (indexed_names_differ _ (txt ".html")), Hne.
    + rewrite (Hexplicit eq_refl I), (Hexplicit eq_refl J).
      intros H. apply (indexed_names_differ (OutputFilename opts) [] I J Hne).
      rewrite !app_nil_r. exact H.
Qed.

Lemma FinalFilename_indexed_and_distinct_witness :
  ((forall I, FinalFilename (no_options [txt "a.bc"]) (txt "a.bc") 2 I
              = txt "a" ++ txt "." ++ to_string I ++ txt ".html")
   /\ (forall I J, I <> J ->
                   FinalFilename (no_options [txt "a.bc"]) (txt "a.bc") 2 I
                   <> FinalFilename (no_options [txt "a.bc"]) (txt "a.bc") 2 J))
  /\ ((forall I, FinalFilename (with_output (txt "out") (no_options [txt "-"]))
                               (txt "-") 2 I
                 = txt "out" ++ txt "." ++ to_string I)
      /\ (forall I J, I <> J ->
                      FinalFilename (with_output (txt "out") (no_options [txt "-"]))
                                    (txt "-") 2 I
                      <> FinalFilename
                           (with_output (txt "out") (no_options [txt "-"]))
                           (txt "-") 2 J)).
Proof.
  split.
  - destruct (FinalFilename_indexed_and_distinct
                (no_options [txt "a.bc"]) (txt "a.bc") 2)
      as (_ & Hinferred & Hdistinct);
      [lia | reflexivity | right; vm_compute; discriminate |].
    split; [|exact Hdistinct].
    exact (proj1 (Hinferred eq_refl) (txt "a") eq_refl).
  - destruct (FinalFilename_indexed_and_distinct
                (with_output (txt "out") (no_options [txt "-"])) (txt "-") 2)
      as (Hexplicit & _ & Hdistinct);
      [lia | reflexivity | left; reflexivity |].
    split; [exact (Hexplicit eq_refl) | exact Hdistinct].
Defined.

Example FinalFilename_ex_indexed :
  FinalFilename (no_options [txt "a.bc"]) (txt "a.bc") 2 1 = txt "a.1.html"
  /\ FinalFilename (with_output (txt "out") (no_options [txt "a.bc"]))
                   (txt "a.bc") 2 1 = txt "out.1".
Proof. split; reflexivity. Qed.

(** C2 as stated fails: two modules read from standard input, with no [-o]
    name, both get the name ["-"], which holds no index. *)
Lemma FinalFilename_stdin_names_coincide :
  FinalFilename (no_options [txt "-"]) (txt "-") 2 0 = txt "-"
  /\ FinalFilename (no_options [txt "-"]) (txt "-") 2 1 = txt "-"
  /\ ~ (FinalFilename (no_options [txt "-"]) (txt "-") 2 0
        <> FinalFilename (no_options [txt "-"]) (txt "-") 2 1).
Proof.
  repeat split. intros H. apply H. reflexivity.
Qed.

(** C6, as the code has it.  For an input that is not the standard-input
    sentinel, holding one module, with no [-o] name and without
    [--disable-output], the name of the output is the input name with a
    trailing [".bc"] removed, when it has one, followed by [".html"]. *)
Theorem FinalFilename_single_module_inferred
        (opts : Options) (InputFilename : text) (I : nat) :
  OutputFilename opts = [] ->
  DontPrint opts = false ->
  InputFilename <> txt "-" ->
  (forall stem, InputFilename = stem ++ txt ".bc" ->
                FinalFilename opts InputFilename 1 I = stem ++ txt ".html")
  /\ ((forall stem, InputFilename <> stem ++ txt ".bc") ->
      FinalFilename opts InputFilename 1 I = InputFilename ++ txt ".html").
Proof.
  intros HO HD Hin. apply text_eqb_neq in Hin.
  unfold FinalFilename. rewrite HO, HD. simpl empty. cbv iota. rewrite Hin.
  change (1 <? 1) with false. cbv iota. split.
  - intros stem ->.
    assert (E : endswith (stem ++ txt ".bc") (txt ".bc") = true)
      by (apply endswith_app; exists stem; reflexivity).
    rewrite E. change 3 with (length (txt ".bc")).
    rewrite drop_back_app. reflexivity.
  - intros Hno.
    destruct (endswith InputFilename (txt ".bc")) eqn:E; [|reflexivity].
    apply endswith_app in E. destruct E as [stem E].
    exfalso. exact (Hno stem E).
Qed.

Lemma FinalFilename_single_module_inferred_witness :
  (forall stem, txt "dir/a.bc" = stem ++ txt ".bc" ->
                FinalFilename (no_options [txt "dir/a.bc"]) (txt "dir/a.bc") 1 0
                = stem ++ txt ".html")
  /\ ((forall stem, txt "dir/a.bc" <> stem ++ txt ".bc") ->
      FinalFilename (no_options [txt "dir/a.bc"]) (txt "dir/a.bc") 1 0
      = txt "dir/a.bc" ++ txt ".html").
Proof.
  apply FinalFilename_single_module_inferred;
    [reflexivity | reflexivity | vm_compute; discriminate].
Defined.

Example FinalFilename_ex_bc :
  FinalFilename (no_options [txt "dir/a.bc"]) (txt "dir/a.bc") 1 0
  = txt "dir/a.html".
Proof. vm_compute. reflexivity. Qed.

Example FinalFilename_ex_ll :
  FinalFilename (no_options [txt "a.ll"]) (txt "a.ll") 1 0 = txt "a.ll.html".
Proof. vm_compute. reflexivity. Qed.

(** C6 as stated fails: with [--disable-output] and no [-o] name, the single
    module of [a.bc] is given the name ["-"], not ["a.html"]. *)
Lemma FinalFilename_disable_output_is_stdout :
  OutputFilename (with_disable_output (no_options [txt "a.bc"])) = []
  /\ txt "a.bc" <> txt "-"
  /\ FinalFilename (with_disable_output (no_options [txt "a.bc"]))
                   (txt "a.bc") 1 0 = txt "-"
  /\ FinalFilename (with_disable_output (no_options [txt "a.bc"]))
                   (txt "a.bc") 1 0 <> txt "a" ++ txt ".html".
Proof.
  repeat split; vm_compute; discriminate.
Qed.

(** When the name is inferred from the standard-input sentinel and
    [--disable-output] is not given, every module is written to ["-"]. *)
Lemma FinalFilename_stdin_inferred (opts : Options) (N I : nat) :
  OutputFilename opts = [] ->
  DontPrint opts = false ->
  FinalFilename opts (txt "-") N I = txt "-".
Proof.
  intros HO HD. unfold FinalFilename. rewrite HO, HD. reflexivity.
Qed.

(** The warning about standard output is written exactly when the [-o] name
    is ["-"] and the container holds more than one module; it is written
    after the input is read and before any module is treated. *)
Lemma process_input_warning
      (MemoryBuffer BitcodeModule Module ModuleSummaryIndex : Type)
      (llvm : LLVM MemoryBuffer BitcodeModule Module ModuleSummaryIndex)
      (argv0 : text) (opts : Options) (InputFilename : text)
      (MB : MemoryBuffer) (Mods : list BitcodeModule) :
  getFileOrSTDIN llvm InputFilename = Success MB ->
  getBitcodeFileContents llvm MB = Success Mods ->
  fst (process_input llvm argv0 opts InputFilename)
  = [ReadInput InputFilename]
      ++ (if text_eqb (OutputFilename opts) (txt "-") && (1 <? length Mods)
          then [Errs None
                  (txt "only single module bitcode files can be written to stdout"
                   ++ [NL])]
          else [])
      ++ fst (for_modules llvm argv0 opts InputFilename (length Mods) 0 Mods).
Proof.
  intros Hread Hdecode. unfold process_input. rewrite Hread, Hdecode.
  cbv [ExitOnErr]. rewrite bind_ret_l. cbv zeta.
  destruct (for_modules llvm argv0 opts InputFilename (length Mods) 0 Mods)
    as [t r].
  destruct (text_eqb (OutputFilename opts) (txt "-") && (1 <? length Mods));
    reflexivity.
Qed.

(** C10, at the input on which the code leaves it: two modules read from
    standard input, no [-o] name, [--disable-output].  The names are
    ["-.0"] and ["-.1"], files of these names are created and kept, and the
    standard output is not the destination of either module. *)
Theorem FinalFilename_stdin_disable_output_indexed :
  OutputFilename (with_disable_output (no_options [])) = []
  /\ FinalFilename (with_disable_output (no_options [])) (txt "-") 2 0
     = txt "-.0"
  /\ FinalFilename (with_disable_output (no_options [])) (txt "-") 2 1
     = txt "-.1"
  /\ main (toy_llvm (fun _ => Some [toy_plain; toy_with_summary]))
          (txt "llvm-html") (with_disable_output (no_options []))
     = ([ReadInput (txt "-");
         Call_getLazyModule; Call_materializeAll;
         OpenOutput (txt "-.0"); Write (txt "-.0") []; Keep (txt "-.0");
         Call_getLazyModule; Call_materializeAll;
         OpenOutput (txt "-.1"); Write (txt "-.1") []; Keep (txt "-.1")],
        0%Z).
Proof.
  repeat split.
Qed.

(** ** The driver: [--print-thinlto-index-only] *)

Section Traces.

Variable P : event -> Prop.

Lemma bind_trace {A B} (m : Run A) (f : A -> Run B) :
  Forall P (fst m) ->
  (forall a, Forall P (fst (f a))) ->
  Forall P (fst (bind m f)).
Proof.
  intros Hm Hf. destruct m as [t [a | c]]; simpl in *.
  - specialize (Hf a). destruct (f a) as [t' r]. simpl in *.
    apply Forall_app. split; assumption.
  - assumption.
Qed.

Lemma ret_trace {A} (a : A) : Forall P (fst (ret a)).
Proof. constructor. Qed.

Lemma exit_trace {A} (c : Z) : Forall P (fst (@exit A c)).
Proof. constructor. Qed.

Lemma emit_trace (e : event) : P e -> Forall P (fst (emit e)).
Proof. intros H. constructor; [assumption | constructor]. Qed.

End Traces.

Section IndexOnly.

Variables MemoryBuffer BitcodeModule Module ModuleSummaryIndex : Type.
Variable llvm : LLVM MemoryBuffer BitcodeModule Module ModuleSummaryIndex.
Variable argv0 : text.
Variable opts : Options.
Hypothesis index_only : PrintThinLTOIndexOnly opts = true.

Let quiet (e : event) : Prop := is_module_call e = false.

Lemma ExitOnErr_quiet {A} (e : Expected A) :
  Forall quiet (fst (ExitOnErr argv0 e)).
Proof.
  destruct e; simpl; repeat constructor.
Qed.

Ltac quiet_step :=
  first [ apply ret_trace | apply exit_trace | apply ExitOnErr_quiet
        | apply emit_trace; reflexivity
        | apply bind_trace; [| intros ? ] ].

Lemma process_module_quiet (InputFilename : text) (N I : nat)
      (MB : BitcodeModule) :
  Forall quiet (fst (process_module llvm argv0 opts InputFilename N I MB)).
Proof.
  unfold process_module. rewrite index_only. cbv [negb].
  rewrite bind_ret_l.
  apply bind_trace; [apply ExitOnErr_quiet | intros LTOInfo].
  apply bind_trace.
  { destruct (HasSummary LTOInfo); repeat quiet_step. }
  intros Index. cbv zeta.
  apply bind_trace; [apply emit_trace; reflexivity | intros _].
  destruct (ToolOutputFile_open llvm _); [repeat quiet_step|].
  apply bind_trace; [| intros Outs; repeat quiet_step].
  destruct (DontPrint opts); [apply ret_trace|].
  rewrite bind_ret_l.
  destruct Index; repeat quiet_step.
Qed.

Lemma for_modules_quiet (InputFilename : text) (N : nat)
      (Mods : list BitcodeModule) :
  forall I,
    Forall quiet (fst (for_modules llvm argv0 opts InputFilename N I Mods)).
Proof.
  induction Mods as [|MB Mods IH]; intros I; cbn [for_modules].
  - apply ret_trace.
  - apply bind_trace; [apply process_module_quiet | intros _; apply IH].
Qed.

Lemma process_input_quiet (InputFilename : text) :
  Forall quiet (fst (process_input llvm argv0 opts InputFilename)).
Proof.
  unfold process_input.
  apply bind_trace; [apply emit_trace; reflexivity | intros _].
  destruct (getFileOrSTDIN llvm InputFilename) as [MB | message].
  - apply bind_trace; [apply ExitOnErr_quiet | intros Mods]. cbv zeta.
    apply bind_trace; [| intros _; apply for_modules_quiet].
    destruct (_ && _); repeat quiet_step.
  - unfold WithColor_error. repeat quiet_step.
Qed.

Lemma for_inputs_quiet (Inputs : list text) :
  Forall quiet (fst (for_inputs llvm argv0 opts Inputs)).
Proof.
  induction Inputs as [|f Inputs IH]; cbn [for_inputs].
  - apply ret_trace.
  - apply bind_trace; [apply process_input_quiet | intros _; apply IH].
Qed.

Lemma main_quiet : Forall quiet (fst (main llvm argv0 opts)).
Proof.
  unfold main.
  match goal with
  | |- Forall _ (fst (match ?r with _ => _ end)) =>
      assert (H : Forall quiet (fst r)); [| destruct r as [t [u | c]]; exact H]
  end.
  destruct (_ <? 1); [apply for_inputs_quiet|].
  destruct (_ && _); [repeat quiet_step | apply for_inputs_quiet].
Qed.

(** With a summary index and an output that opens, the module's output is
    given the rendered index and nothing else. *)
Lemma process_module_index_only (InputFilename : text) (N I : nat)
      (MB : BitcodeModule) (LTOInfo : BitcodeLTOInfo)
      (Index : ModuleSummaryIndex) :
  DontPrint opts = false ->
  getLTOInfo llvm MB = Success LTOInfo ->
  HasSummary LTOInfo = true ->
  getSummary llvm MB = Success Index ->
  ToolOutputFile_open llvm (FinalFilename opts InputFilename N I) = None ->
  process_module llvm argv0 opts InputFilename N I MB
  = ([OpenOutput (FinalFilename opts InputFilename N I);
      Write (FinalFilename opts InputFilename N I) (Index_print llvm Index);
      Write (FinalFilename opts InputFilename N I) [];
      Keep (FinalFilename opts InputFilename N I)],
     Ok tt).
Proof.
  intros HD HL HS HI HO.
  unfold process_module.
  rewrite index_only, HD, HL. cbv [negb ExitOnErr].
  rewrite !bind_ret_l, HS, HI. cbv [ExitOnErr].
  rewrite !bind_ret_l. cbv zeta. rewrite HO.
  reflexivity.
Qed.

End IndexOnly.

Lemma text_eqb_refl (a : text) : text_eqb a a = true.
Proof. apply text_eqb_eq. reflexivity. Qed.

(** C8, as the code has it.  With [--print-thinlto-index-only], whatever the
    inputs and the other options, [main] never calls [getLazyModule],
    [materializeMetadata], [materializeAll] or [HTMLWriter::print].  When
    [--disable-output] is not given, a module that carries a summary index
    has exactly the rendered index written to its output (followed by the
    empty result of the CSS inliner), and the output is kept. *)
Theorem index_only_skips_modules_and_prints_index
        (MemoryBuffer BitcodeModule Module ModuleSummaryIndex : Type)
        (llvm : LLVM MemoryBuffer BitcodeModule Module ModuleSummaryIndex)
        (argv0 : text) (opts : Options) :
  PrintThinLTOIndexOnly opts = true ->
  Forall (fun e => is_module_call e = false) (fst (main llvm argv0 opts))
  /\ forall (InputFilename : text) (N I : nat) (MB : BitcodeModule)
            (LTOInfo : BitcodeLTOInfo) (Index : ModuleSummaryIndex),
      DontPrint opts = false ->
      getLTOInfo llvm MB = Success LTOInfo ->
      HasSummary LTOInfo = true ->
      getSummary llvm MB = Success Index ->
      ToolOutputFile_open llvm (FinalFilename opts InputFilename N I) = None ->
      process_module llvm argv0 opts InputFilename N I MB
      = ([OpenOutput (FinalFilename opts InputFilename N I);
          Write (FinalFilename opts InputFilename N I) (Index_print llvm Index);
          Write (FinalFilename opts InputFilename N I) [];
          Keep (FinalFilename opts InputFilename N I)],
         Ok tt)
      /\ written_to (FinalFilename opts InputFilename N I)
           (fst (process_module llvm argv0 opts InputFilename N I MB))
         = Index_print llvm Index.
Proof.
  intros Hidx. split.
  - apply main_quiet, Hidx.
  - intros InputFilename N I MB LTOInfo Index HD HL HS HI HO.
    rewrite (@process_module_index_only _ _ _ _ llvm argv0 opts Hidx
               InputFilename N I MB LTOInfo Index HD HL HS HI HO).
    split; [reflexivity|].
    cbn [fst written_to]. rewrite text_eqb_refl.
    rewrite !app_nil_r. reflexivity.
Qed.

Lemma index_only_skips_modules_and_prints_index_witness :
  Forall (fun e => is_module_call e = false)
         (fst (main (toy_llvm (fun _ => Some [toy_plain; toy_with_summary]))
                    (txt "llvm-html")
                    (with_index_only (no_options [txt "a.bc"]))))
  /\ process_module (toy_llvm (fun _ => Some [toy_plain; toy_with_summary]))
       (txt "llvm-html") (with_index_only (no_options [txt "a.bc"]))
       (txt "a.bc") 2 1 toy_with_summary
     = ([OpenOutput (txt "a.1.html");
         Write (txt "a.1.html") (txt "^0 = module");
         Write (txt "a.1.html") [];
         Keep (txt "a.1.html")],
        Ok tt)
  /\ written_to (txt "a.1.html")
       (fst (process_module
               (toy_llvm (fun _ => Some [toy_plain; toy_with_summary]))
               (txt "llvm-html") (with_index_only (no_options [txt "a.bc"]))
               (txt "a.bc") 2 1 toy_with_summary))
     = txt "^0 = module".
Proof.
  destruct (@index_only_skips_modules_and_prints_index _ _ _ _
              (toy_llvm (fun _ => Some [toy_plain; toy_with_summary]))
              (txt "llvm-html") (with_index_only (no_options [txt "a.bc"]))
              eq_refl) as [Hquiet Hindex].
  split; [exact Hquiet|].
  exact (Hindex (txt "a.bc") 2 1 toy_with_summary (mkBitcodeLTOInfo true)
                (txt "^0 = module") eq_refl eq_refl eq_refl eq_refl eq_refl).
Defined.

(** C8 as stated fails: with [--disable-output] as well, a module that
    carries a summary index has nothing written to its output, so the
    output does not hold the rendered index. *)
Lemma index_only_with_disable_output_writes_nothing :
  PrintThinLTOIndexOnly
    (with_disable_output (with_index_only (no_options [txt "a.bc"]))) = true
  /\ getSummary (toy_llvm (fun _ => Some [toy_with_summary])) toy_with_summary
     = Success (txt "^0 = module")
  /\ main (toy_llvm (fun _ => Some [toy_with_summary])) (txt "llvm-html")
          (with_disable_output (with_index_only (no_options [txt "a.bc"])))
     = ([ReadInput (txt "a.bc"); OpenOutput (txt "-");
         Write (txt "-") []; Keep (txt "-")],
        0%Z)
  /\ occurs (txt "^0 = module")
       (written_to (txt "-")
          (fst (main (toy_llvm (fun _ => Some [toy_with_summary]))
                     (txt "llvm-html")
                     (with_disable_output
                        (with_index_only (no_options [txt "a.bc"]))))))
     = false.
Proof.
  repeat split.
Qed.

(** ** The CSS inliner: the matcher *)

Lemma strip_prefix_app (pre s t : text) :
  strip_prefix pre s = Some t <-> s = pre ++ t.
Proof.
  revert s; induction pre as [|c pre IH]; intros s; simpl.
  - split; [intros H; inversion H; reflexivity | intros ->; reflexivity].
  - destruct s as [|x s]; [split; discriminate|].
    destruct (Ascii.eqb_spec x c) as [->|Hne].
    + rewrite IH. split; [intros ->; reflexivity | intros H; inversion H; auto].
    + split; [discriminate | intros H; inversion H; contradiction].
Qed.

Lemma terminator_not_gt (c : ascii) :
  Regex.is_line_terminator c = true -> Ascii.eqb c ">" = false.
Proof.
  unfold Regex.is_line_terminator. intros H.
  apply orb_true_iff in H. destruct H as [H | H];
    apply Ascii.eqb_eq in H; subst c; reflexivity.
Qed.

Lemma star_gt_cons (x : ascii) (t : text) :
  star_gt (x :: t)
  = if Regex.is_line_terminator x then None
    else match star_gt t with
         | Some (m, r) => Some (x :: m, r)
         | None => if Ascii.eqb x ">" then Some ([x], t) else None
         end.
Proof.
  unfold star_gt. cbn [Regex.match_at].
  destruct (Regex.is_line_terminator x) eqn:Ex.
  - rewrite (terminator_not_gt x Ex). reflexivity.
  - match goal with
    | |- match ?a with _ => _ end = match ?b with _ => _ end =>
        change a with b; destruct b as [[m r]|]
    end; [reflexivity|].
    destruct (Ascii.eqb x ">"); reflexivity.
Qed.

(** What [.*>] matches: up to the last [>] of the line. *)
Lemma star_gt_spec (t : text) :
  match star_gt t with
  | Some (m, r) =>
      t = m ++ r
      /\ (exists mid, m = mid ++ txt ">"
                      /\ Forall (fun c => Regex.is_line_terminator c = false) mid)
      /\ gt_on_line t = true
      /\ gt_on_line r = false
  | None => gt_on_line t = false
  end.
Proof.
  induction t as [|x t IH].
  - reflexivity.
  - rewrite star_gt_cons. cbn [gt_on_line].
    destruct (Regex.is_line_terminator x) eqn:Ex.
    + rewrite (terminator_not_gt x Ex). reflexivity.
    + destruct (star_gt t) as [[m r]|].
      * destruct IH as (-> & (mid & -> & Hmid) & Ht & Hr).
        repeat split; try assumption.
        -- exists (x :: mid). split; [reflexivity|]. constructor; assumption.
        -- destruct (Ascii.eqb x ">"); [reflexivity | assumption].
      * destruct (Ascii.eqb_spec x ">") as [->|Hne].
        -- repeat split; try assumption.
           exists []. split; [reflexivity | constructor].
        -- assumption.
Qed.

Lemma match_at_link (s : text) :
  Regex.match_at link_regex s
  = match strip_prefix (txt "<link") s with
    | Some t =>
        match star_gt t with
        | Some (m, r) => Some (txt "<link" ++ m, r)
        | None => None
        end
    | None => None
    end.
Proof.
  unfold link_regex, star_gt.
  destruct s as [|c1 s]; [reflexivity|].
  cbn [Regex.match_at strip_prefix txt list_ascii_of_string].
  destruct (Ascii.eqb_spec c1 "<") as [->|]; [|reflexivity].
  destruct s as [|c2 s]; [reflexivity|].
  destruct (Ascii.eqb_spec c2 "l") as [->|]; [|reflexivity].
  destruct s as [|c3 s]; [reflexivity|].
  destruct (Ascii.eqb_spec c3 "i") as [->|]; [|reflexivity].
  destruct s as [|c4 s]; [reflexivity|].
  destruct (Ascii.eqb_spec c4 "n") as [->|]; [|reflexivity].
  destruct s as [|c5 s]; [reflexivity|].
  destruct (Ascii.eqb_spec c5 "k") as [->|]; [|reflexivity].
  match goal with
  | |- _ = match ?a with Some _ => _ | None => None end =>
      destruct a as [[m r]|]
  end; reflexivity.
Qed.

Lemma match_at_link_some (s m r : text) :
  Regex.match_at link_regex s = Some (m, r) ->
  s = m ++ r /\ is_placeholder m /\ placeholder_at s = true
  /\ gt_on_line r = false.
Proof.
  rewrite match_at_link. unfold placeholder_at.
  destruct (strip_prefix (txt "<link") s) as [t|] eqn:Et; [|discriminate].
  apply strip_prefix_app in Et. subst s.
  pose proof (star_gt_spec t) as Hspec.
  destruct (star_gt t) as [[m' r']|]; [|discriminate].
  intros H. inversion H; subst m r.
  destruct Hspec as (-> & (mid & -> & Hmid) & Ht & Hr).
  split; [|split; [|split]]; try assumption.
  - simpl. rewrite <- ?app_assoc. reflexivity.
  - exists mid. split; [reflexivity | assumption].
Qed.

Lemma match_at_link_none (s : text) :
  Regex.match_at link_regex s = None <-> placeholder_at s = false.
Proof.
  rewrite match_at_link. unfold placeholder_at.
  destruct (strip_prefix (txt "<link") s) as [t|]; [|tauto].
  pose proof (star_gt_spec t) as Hspec.
  destruct (star_gt t) as [[m r]|].
  - destruct Hspec as (_ & _ & Ht & _). rewrite Ht. split; discriminate.
  - rewrite Hspec. tauto.
Qed.

Lemma has_placeholderb_app (a b : text) :
  has_placeholderb (a ++ b) = negb (front_clear a b) || has_placeholderb b.
Proof.
  induction a as [|x a IH].
  - simpl. destruct b; reflexivity.
  - cbn [app has_placeholderb front_clear]. rewrite IH.
    change (x :: a ++ b) with ((x :: a) ++ b).
    destruct (placeholder_at ((x :: a) ++ b)); reflexivity.
Qed.

Lemma regex_search_none (s : text) :
  Regex.regex_search link_regex s = None <-> has_placeholderb s = false.
Proof.
  induction s as [|x s IH]; cbn [Regex.regex_search has_placeholderb].
  - destruct (Regex.match_at link_regex []) as [[m r]|] eqn:E.
    + apply match_at_link_some in E. destruct E as (_ & _ & E & _).
      discriminate.
    + split; reflexivity.
  - destruct (Regex.match_at link_regex (x :: s)) as [[m r]|] eqn:E.
    + apply match_at_link_some in E. destruct E as (_ & _ & E & _).
      rewrite E. split; discriminate.
    + apply match_at_link_none in E. rewrite E. cbn [orb].
      destruct (Regex.regex_search link_regex s) as [[[p m] r]|].
      * split; [discriminate|]. intros H. apply IH in H. discriminate.
      * split; [intros _; apply IH; reflexivity | reflexivity].
Qed.

(** What [regex_search] finds: the leftmost placeholder, up to the last
    [>] of its line. *)
Lemma regex_search_some (s p m r : text) :
  Regex.regex_search link_regex s = Some (p, m, r) ->
  s = p ++ m ++ r /\ is_placeholder m
  /\ front_clear p (m ++ r) = true
  /\ placeholder_at (m ++ r) = true
  /\ gt_on_line r = false.
Proof.
  revert p. induction s as [|x s IH]; intros p;
    cbn [Regex.regex_search].
  - destruct (Regex.match_at link_regex []) as [[m' r']|] eqn:E;
      [|discriminate].
    apply match_at_link_some in E. destruct E as (_ & _ & E & _).
    discriminate.
  - destruct (Regex.match_at link_regex (x :: s)) as [[m' r']|] eqn:E.
    + intros H. inversion H; subst p m' r'.
      apply match_at_link_some in E. destruct E as (E1 & E2 & E3 & E4).
      rewrite <- E1. split; [|split; [|split; [|split]]];
        solve [reflexivity | assumption].
    + apply match_at_link_none in E.
      destruct (Regex.regex_search link_regex s) as [[[p' m'] r']|];
        [|discriminate].
      intros H. inversion H; subst p m' r'.
      destruct (IH p' eq_refl) as (-> & H2 & H3 & H4 & H5).
      split; [|split; [|split; [|split]]]; try solve [reflexivity | assumption].
      cbn [front_clear]. change ((x :: p') ++ m ++ r) with (x :: p' ++ m ++ r).
      rewrite E, H3. reflexivity.
Qed.

Lemma placeholder_nonempty (m : text) : is_placeholder m -> 0 < length m.
Proof.
  intros (mid & -> & _). simpl. lia.
Qed.

Lemma gt_on_line_mid (mid r : text) :
  Forall (fun c => Regex.is_line_terminator c = false) mid ->
  gt_on_line (mid ++ txt ">" ++ r) = true.
Proof.
  induction 1 as [|c mid Hc _ IH]; [reflexivity|].
  cbn [app gt_on_line]. rewrite Hc, IH.
  destruct (Ascii.eqb c ">"); reflexivity.
Qed.

Lemma gt_on_line_split (t : text) :
  gt_on_line t = true ->
  exists mid r,
    t = mid ++ txt ">" ++ r
    /\ Forall (fun c => Regex.is_line_terminator c = false) mid.
Proof.
  induction t as [|c t IH]; [discriminate|]. cbn [gt_on_line].
  destruct (Ascii.eqb_spec c ">") as [->|Hne].
  - intros _. exists [], t. split; [reflexivity | constructor].
  - destruct (Regex.is_line_terminator c) eqn:Ec; [discriminate|].
    intros H. destruct (IH H) as (mid & r & -> & Hmid).
    exists (c :: mid), r. split; [reflexivity | constructor; assumption].
Qed.

(** The executable test and the definition of a placeholder agree. *)
Lemma has_placeholderb_iff (s : text) :
  has_placeholderb s = true <-> has_placeholder s.
Proof.
  split.
  - induction s as [|x s IH]; cbn [has_placeholderb];
      intros H; apply orb_true_iff in H; destruct H as [H | H];
      try discriminate.
    + unfold placeholder_at in H.
      destruct (strip_prefix (txt "<link") (x :: s)) as [t|] eqn:Et;
        [|discriminate].
      apply strip_prefix_app in Et.
      destruct (gt_on_line_split t H) as (mid & r & -> & Hmid).
      exists [], (txt "<link" ++ mid ++ txt ">"), r. split.
      * rewrite Et. rewrite <- !app_assoc. reflexivity.
      * exists mid. split; [reflexivity | assumption].
    + destruct (IH H) as (p & m & r & -> & Hm).
      exists (x :: p), m, r. split; [reflexivity | assumption].
  - intros (p & m & r & -> & mid & -> & Hmid).
    rewrite has_placeholderb_app. apply orb_true_iff. right.
    assert (E : placeholder_at ((txt "<link" ++ mid ++ txt ">") ++ r) = true).
    { rewrite <- !app_assoc. unfold placeholder_at.
      assert (Es : strip_prefix (txt "<link") (txt "<link" ++ mid ++ txt ">" ++ r)
                   = Some (mid ++ txt ">" ++ r))
        by (apply strip_prefix_app; reflexivity).
      rewrite Es. apply gt_on_line_mid, Hmid. }
    destruct ((txt "<link" ++ mid ++ txt ">") ++ r) eqn:Ed;
      cbn [has_placeholderb]; rewrite E; reflexivity.
Qed.

Lemma no_placeholder_iff (s : text) :
  Regex.regex_search link_regex s = None <-> ~ has_placeholder s.
Proof.
  rewrite regex_search_none, <- has_placeholderb_iff.
  destruct (has_placeholderb s); split; congruence.
Qed.

(** ** The CSS inliner: the replacement *)

Lemma regex_search_shorter (s p m r : text) :
  Regex.regex_search link_regex s = Some (p, m, r) -> length r < length s.
Proof.
  intros H. apply regex_search_some in H.
  destruct H as (-> & Hm & _). apply placeholder_nonempty in Hm.
  rewrite !length_app. lia.
Qed.

(** The bound on the number of matches is never reached: any larger bound
    gives the same text. *)
Lemma regex_replace_loop_stable (fmt : text) (n1 n2 : nat) :
  forall s,
    length s < n1 -> length s < n2 ->
    Regex.regex_replace_loop n1 link_regex s fmt
    = Regex.regex_replace_loop n2 link_regex s fmt.
Proof.
  revert n2. induction n1 as [|n1 IH]; intros n2 s H1 H2; [lia|].
  destruct n2 as [|n2]; [lia|]. cbn [Regex.regex_replace_loop].
  destruct (Regex.regex_search link_regex s) as [[[p m] r]|] eqn:E;
    [|reflexivity].
  apply regex_search_shorter in E.
  rewrite (IH n2 r) by lia. reflexivity.
Qed.

Lemma count_matches_loop_stable (n1 n2 : nat) :
  forall s,
    length s < n1 -> length s < n2 ->
    Regex.count_matches_loop n1 link_regex s
    = Regex.count_matches_loop n2 link_regex s.
Proof.
  revert n2. induction n1 as [|n1 IH]; intros n2 s H1 H2; [lia|].
  destruct n2 as [|n2]; [lia|]. cbn [Regex.count_matches_loop].
  destruct (Regex.regex_search link_regex s) as [[[p m] r]|] eqn:E;
    [|reflexivity].
  apply regex_search_shorter in E.
  rewrite (IH n2 r) by lia. reflexivity.
Qed.

(** One step of the replacement: the first match is replaced, and the text
    after it is treated in the same way. *)
Lemma regex_replace_step (s fmt p m r : text) :
  Regex.regex_search link_regex s = Some (p, m, r) ->
  Regex.regex_replace s link_regex fmt
  = p ++ Regex.format fmt p m r ++ Regex.regex_replace r link_regex fmt.
Proof.
  intros E. unfold Regex.regex_replace at 1.
  cbn [Regex.regex_replace_loop]. rewrite E.
  apply regex_search_shorter in E.
  rewrite (regex_replace_loop_stable fmt (length s) (S (length r)) r)
    by lia.
  reflexivity.
Qed.

Lemma regex_replace_no_match (s fmt : text) :
  Regex.regex_search link_regex s = None ->
  Regex.regex_replace s link_regex fmt = s.
Proof.
  intros E. unfold Regex.regex_replace.
  cbn [Regex.regex_replace_loop]. rewrite E. reflexivity.
Qed.

Lemma count_matches_step (s p m r : text) :
  Regex.regex_search link_regex s = Some (p, m, r) ->
  Regex.count_matches link_regex s = S (Regex.count_matches link_regex r).
Proof.
  intros E. unfold Regex.count_matches at 1.
  cbn [Regex.count_matches_loop]. rewrite E.
  apply regex_search_shorter in E.
  rewrite (count_matches_loop_stable (length s) (S (length r)) r) by lia.
  reflexivity.
Qed.

Lemma count_matches_zero (s : text) :
  Regex.count_matches link_regex s = 0
  <-> Regex.regex_search link_regex s = None.
Proof.
  unfold Regex.count_matches. cbn [Regex.count_matches_loop].
  destruct (Regex.regex_search link_regex s) as [[[p m] r]|];
    split; congruence.
Qed.

(** A format string without [$] stands for itself. *)
Lemma format_no_dollar (fmt pre mat suf : text) :
  occurs (txt "$") fmt = false ->
  Regex.format fmt pre mat suf = fmt.
Proof.
  change (txt "$") with ["$"%char].
  induction fmt as [|c fmt IH]; [reflexivity|].
  cbn [occurs startswith].
  rewrite andb_true_r. intros H. apply orb_false_iff in H.
  destruct H as [Hc Hrest].
  cbn [Regex.format]. rewrite Hc, (IH Hrest). reflexivity.
Qed.

Lemma occurs_dollar_app (a b : text) :
  occurs (txt "$") (a ++ b) = occurs (txt "$") a || occurs (txt "$") b.
Proof.
  change (txt "$") with ["$"%char].
  induction a as [|c a IH].
  - destruct b; reflexivity.
  - cbn [app occurs startswith].
    rewrite IH, !andb_true_r, orb_assoc. reflexivity.
Qed.

Lemma ReplacementString_no_dollar (CSS : text) :
  occurs (txt "$") CSS = false ->
  occurs (txt "$") (ReplacementString CSS) = false.
Proof.
  intros H. unfold ReplacementString.
  rewrite !occurs_dollar_app, H. reflexivity.
Qed.

(** C7.  When the body text holds no placeholder (no text [<link], then
    characters other than line terminators, then [>]), what the inliner
    writes is the body text itself, whatever the CSS text is. *)
Theorem inlineCSS_without_placeholder_is_identity (Out CSS : text) :
  ~ has_placeholder Out ->
  inlineCSS Out CSS = Out.
Proof.
  intros H. apply no_placeholder_iff in H.
  unfold inlineCSS. apply regex_replace_no_match, H.
Qed.

Lemma inlineCSS_without_placeholder_is_identity_witness :
  inlineCSS (txt "<html><li>nk</li> <lin k>" ++ [NL] ++ txt "<link" ++ [NL] ++ txt ">")
            (txt "a{}$&")
  = txt "<html><li>nk</li> <lin k>" ++ [NL] ++ txt "<link" ++ [NL] ++ txt ">".
Proof.
  apply inlineCSS_without_placeholder_is_identity.
  apply no_placeholder_iff. vm_compute. reflexivity.
Defined.

(** ** The CSS inliner: no placeholder is left *)

Lemma placeholder_at_short (a Y : text) :
  a <> [] -> length a < 5 ->
  placeholder_at (a ++ "<"%char :: Y) = false.
Proof.
  intros Hne Hlen. unfold placeholder_at.
  destruct a as [|c1 [|c2 [|c3 [|c4 [|c5 a]]]]];
    [congruence | | | | | simpl in Hlen; lia]; simpl.
  - destruct (Ascii.eqb c1 "<"); reflexivity.
  - destruct (Ascii.eqb c1 "<"); [|reflexivity].
    destruct (Ascii.eqb c2 "l"); reflexivity.
  - destruct (Ascii.eqb c1 "<"); [|reflexivity].
    destruct (Ascii.eqb c2 "l"); [|reflexivity].
    destruct (Ascii.eqb c3 "i"); reflexivity.
  - destruct (Ascii.eqb c1 "<"); [|reflexivity].
    destruct (Ascii.eqb c2 "l"); [|reflexivity].
    destruct (Ascii.eqb c3 "i"); [|reflexivity].
    destruct (Ascii.eqb c4 "n"); reflexivity.
Qed.

Lemma placeholder_at_long (a Z : text) :
  5 <= length a ->
  placeholder_at (a ++ Z)
  = startswith a (txt "<link") && gt_on_line (skipn 5 a ++ Z).
Proof.
  intros Hlen. unfold placeholder_at.
  destruct a as [|c1 [|c2 [|c3 [|c4 [|c5 a]]]]];
    try (simpl in Hlen; lia). simpl.
  destruct (Ascii.eqb c1 "<"); [|reflexivity].
  destruct (Ascii.eqb c2 "l"); [|reflexivity].
  destruct (Ascii.eqb c3 "i"); [|reflexivity].
  destruct (Ascii.eqb c4 "n"); [|reflexivity].
  destruct (Ascii.eqb c5 "k"); reflexivity.
Qed.

Lemma gt_on_line_blocked (a X Y : text) :
  gt_on_line X = true ->
  gt_on_line (a ++ X) = false ->
  gt_on_line (a ++ Y) = false.
Proof.
  intros HX. induction a as [|c a IH]; cbn [app gt_on_line].
  - congruence.
  - destruct (Ascii.eqb c ">"); [discriminate|].
    destruct (Regex.is_line_terminator c); [reflexivity | exact IH].
Qed.

(** The text before the first placeholder starts no placeholder when the
    placeholder is replaced by a text that begins with [<]. *)
Lemma front_clear_replaced (P X Y : text) :
  gt_on_line X = true ->
  front_clear P (txt "<link" ++ X) = true ->
  front_clear P ("<"%char :: Y) = true.
Proof.
  intros HX. induction P as [|x P IH]; [reflexivity|].
  cbn [front_clear]. intros H. apply andb_true_iff in H.
  destruct H as [Hhere Hrest]. rewrite (IH Hrest), andb_true_r.
  apply negb_true_iff in Hhere. apply negb_true_iff.
  destruct (Nat.lt_ge_cases (length (x :: P)) 5) as [Hlen | Hlen].
  - apply placeholder_at_short; [discriminate | exact Hlen].
  - rewrite placeholder_at_long in * by exact Hlen.
    destruct (startswith (x :: P) (txt "<link")); [|reflexivity].
    cbn [andb] in *.
    apply gt_on_line_blocked with (X := txt "<link" ++ X); [|exact Hhere].
    exact HX.
Qed.

Lemma occurs_link_suffix (css : text) :
  occurs (txt "<link") css = false ->
  forall Y, front_clear css ("<"%char :: Y) = true.
Proof.
  intros H Y. induction css as [|c css IH]; [reflexivity|].
  cbn [occurs] in H. apply orb_false_iff in H. destruct H as [Hhere Hrest].
  cbn [front_clear]. rewrite (IH Hrest), andb_true_r.
  apply negb_true_iff.
  destruct (Nat.lt_ge_cases (length (c :: css)) 5) as [Hlen | Hlen].
  - apply placeholder_at_short; [discriminate | exact Hlen].
  - rewrite placeholder_at_long by exact Hlen. rewrite Hhere. reflexivity.
Qed.

Lemma style_open_clear (Z : text) :
  front_clear (txt "<style> " ++ [NL]) Z = true.
Proof. reflexivity. Qed.

Lemma style_close_clear (Z : text) :
  front_clear (txt "</style> " ++ [NL]) Z = true.
Proof. reflexivity. Qed.

(** Putting the block in the place of the only placeholder leaves no
    placeholder. *)
Lemma replaced_has_no_placeholder (P X S CSS : text) :
  gt_on_line X = true ->
  front_clear P (txt "<link" ++ X) = true ->
  occurs (txt "<link") CSS = false ->
  has_placeholderb S = false ->
  has_placeholderb (P ++ ReplacementString CSS ++ S) = false.
Proof.
  intros HX HP HC HS.
  assert (E : ReplacementString CSS ++ S
              = (txt "<style> " ++ [NL])
                  ++ CSS ++ "<"%char :: (txt "/style> " ++ [NL]) ++ S).
  { unfold ReplacementString. rewrite <- !app_assoc. reflexivity. }
  rewrite E.
  rewrite has_placeholderb_app.
  replace (front_clear P
             ((txt "<style> " ++ [NL])
                ++ CSS ++ "<"%char :: (txt "/style> " ++ [NL]) ++ S))
    with true
    by (symmetry; exact (front_clear_replaced P X _ HX HP)).
  cbn [negb orb].
  rewrite has_placeholderb_app, style_open_clear. cbn [negb orb].
  rewrite has_placeholderb_app, (occurs_link_suffix CSS HC). cbn [negb orb].
  replace ("<"%char :: (txt "/style> " ++ [NL]) ++ S)
    with ((txt "</style> " ++ [NL]) ++ S) by reflexivity.
  rewrite has_placeholderb_app, style_close_clear. cbn [negb orb].
  exact HS.
Qed.

(** C1, as the code has it.  When the CSS text holds no [$], every
    placeholder the scan finds, not the first one only, is replaced by the
    block [<style> \n CSS </style> \n]: the first match (no placeholder starts
    before it, and it runs to the last [>] of its line) is replaced and the
    text after it is treated in the same way.  When, moreover, the scan finds
    exactly one placeholder in the body text and the CSS text does not
    contain [<link], the output is the text before the placeholder, the
    block, and the text after the placeholder, and no placeholder is left in
    it. *)
Theorem inlineCSS_replaces_every_placeholder (Out CSS : text) :
  occurs (txt "$") CSS = false ->
  (forall p m r,
      Regex.regex_search link_regex Out = Some (p, m, r) ->
      Out = p ++ m ++ r /\ is_placeholder m
      /\ front_clear p (m ++ r) = true /\ gt_on_line r = false
      /\ inlineCSS Out CSS = p ++ ReplacementString CSS ++ inlineCSS r CSS)
  /\ (Regex.count_matches link_regex Out = 1 ->
      occurs (txt "<link") CSS = false ->
      exists p m r,
        Out = p ++ m ++ r /\ is_placeholder m
        /\ inlineCSS Out CSS = p ++ ReplacementString CSS ++ r
        /\ Regex.count_matches link_regex (inlineCSS Out CSS) = 0
        /\ ~ has_placeholder (inlineCSS Out CSS)).
Proof.
  intros Hdollar.
  assert (Hstep : forall p m r,
             Regex.regex_search link_regex Out = Some (p, m, r) ->
             inlineCSS Out CSS = p ++ ReplacementString CSS ++ inlineCSS r CSS).
  { intros p m r E. unfold inlineCSS.
    rewrite (regex_replace_step Out _ p m r E).
    rewrite format_no_dollar by (apply ReplacementString_no_dollar, Hdollar).
    reflexivity. }
  split.
  - intros p m r E.
    pose proof (regex_search_some Out p m r E) as (H1 & H2 & H3 & _ & H5).
    split; [exact H1 | split; [exact H2 | split; [exact H3 | split]]];
      [exact H5 | apply (Hstep p m r E)].
  - intros Hone Hlink.
    destruct (Regex.regex_search link_regex Out) as [[[p m] r]|] eqn:E.
    + rewrite (count_matches_step Out p m r E) in Hone.
      assert (Hr : Regex.regex_search link_regex r = None)
        by (apply count_matches_zero; lia).
      pose proof (regex_search_some Out p m r E) as (H1 & H2 & H3 & _ & _).
      assert (Hout : inlineCSS Out CSS = p ++ ReplacementString CSS ++ r).
      { rewrite (Hstep p m r eq_refl). unfold inlineCSS.
        rewrite (regex_replace_no_match r _ Hr). reflexivity. }
      assert (Hclean : has_placeholderb (inlineCSS Out CSS) = false).
      { rewrite Hout. destruct H2 as (mid & Hm & Hmid). subst m.
        apply replaced_has_no_placeholder with (X := mid ++ txt ">" ++ r).
        - apply gt_on_line_mid, Hmid.
        - rewrite <- !app_assoc in H3. exact H3.
        - exact Hlink.
        - apply regex_search_none, Hr. }
      exists p, m, r.
      split; [exact H1 | split; [exact H2 | split; [exact Hout | split]]].
      * apply count_matches_zero, regex_search_none, Hclean.
      * apply no_placeholder_iff, regex_search_none, Hclean.
    + apply count_matches_zero in E. rewrite E in Hone. discriminate.
Qed.

Lemma inlineCSS_replaces_every_placeholder_witness :
  inlineCSS (txt "<head><link rel=x>" ++ [NL] ++ txt "<body>") (txt "a{}")
  = txt "<head>" ++ ReplacementString (txt "a{}")
      ++ inlineCSS ([NL] ++ txt "<body>") (txt "a{}")
  /\ exists p m r,
      txt "<head><link rel=x>" ++ [NL] ++ txt "<body>" = p ++ m ++ r
      /\ is_placeholder m
      /\ inlineCSS (txt "<head><link rel=x>" ++ [NL] ++ txt "<body>") (txt "a{}")
         = p ++ ReplacementString (txt "a{}") ++ r
      /\ Regex.count_matches link_regex
           (inlineCSS (txt "<head><link rel=x>" ++ [NL] ++ txt "<body>")
                      (txt "a{}")) = 0
      /\ ~ has_placeholder
           (inlineCSS (txt "<head><link rel=x>" ++ [NL] ++ txt "<body>")
                      (txt "a{}")).
Proof.
  destruct (inlineCSS_replaces_every_placeholder
              (txt "<head><link rel=x>" ++ [NL] ++ txt "<body>") (txt "a{}")
              eq_refl) as [Hall Hone].
  split.
  - exact (proj2 (proj2 (proj2 (proj2
             (Hall (txt "<head>") (txt "<link rel=x>")
                   ([NL] ++ txt "<body>") eq_refl))))).
  - exact (Hone eq_refl eq_refl).
Defined.

Example inlineCSS_ex_one_placeholder :
  inlineCSS (txt "<head><link rel=x>" ++ [NL] ++ txt "<body>") (txt "a{}")
  = txt "<head><style> " ++ [NL] ++ txt "a{}</style> " ++ [NL; NL]
      ++ txt "<body>".
Proof. vm_compute. reflexivity. Qed.

(** The match runs to the last [>] of the line. *)
Example inlineCSS_ex_greedy :
  inlineCSS (txt "<link rel=x></head>" ++ [NL] ++ txt "<body>") (txt "a{}")
  = txt "<style> " ++ [NL] ++ txt "a{}</style> " ++ [NL; NL] ++ txt "<body>".
Proof. vm_compute. reflexivity. Qed.

(** C1 as stated fails.  (1) With two placeholders, on two lines, the second
    one is replaced as well as the first.  (2) With one placeholder and the
    CSS text [a$$b], the block holds [a$b]: the replacement is a format
    string, and the output does not contain the CSS text.  (3) With one
    placeholder and the CSS text [<link>], the output holds a placeholder. *)
Lemma inlineCSS_not_first_only_nor_literal :
  (Regex.regex_search link_regex (txt "<link a>" ++ [NL] ++ txt "<link b>")
   = Some ([], txt "<link a>", [NL] ++ txt "<link b>")
   /\ inlineCSS (txt "<link a>" ++ [NL] ++ txt "<link b>") (txt "x")
      = ReplacementString (txt "x") ++ [NL] ++ ReplacementString (txt "x")
   /\ inlineCSS (txt "<link a>" ++ [NL] ++ txt "<link b>") (txt "x")
      <> [] ++ ReplacementString (txt "x") ++ [NL] ++ txt "<link b>")
  /\ (Regex.count_matches link_regex (txt "<link>") = 1
      /\ inlineCSS (txt "<link>") (txt "a$$b")
         = txt "<style> " ++ [NL] ++ txt "a$b</style> " ++ [NL]
      /\ occurs (txt "a$$b") (inlineCSS (txt "<link>") (txt "a$$b")) = false)
  /\ (Regex.count_matches link_regex (txt "<link>") = 1
      /\ inlineCSS (txt "<link>") (txt "<link>")
         = txt "<style> " ++ [NL] ++ txt "<link></style> " ++ [NL]
      /\ Regex.count_matches link_regex
           (inlineCSS (txt "<link>") (txt "<link>")) = 1).
Proof.
  repeat split; vm_compute; discriminate.
Qed.

(** ** The annotation writer *)

(** C4, as the code has it.  For every value, when none of the three
    fragments applies nothing is done to the stream; otherwise the stream is
    padded to column 50 exactly once, before anything is written, and the
    text written is one [;] followed by the fragments that apply, in this
    order: [ [#uses=N type=T]] when the type is not void,
    [ [debug line = L]] when the value is an instruction with a debug
    location, [ [debug variable = name]] when it is a debug-declare or
    debug-value intrinsic.  The [;] is written once, at the start of the
    comment, not before each fragment. *)
Theorem printInfoComment_pads_once_then_appends (V : Value) :
  pad_count (printInfoComment V) <= 1
  /\ match uses_fragment V ++ debug_line_fragment V
           ++ debug_variable_fragment V with
     | [] => printInfoComment V = []
     | _ :: _ =>
         exists ops,
           printInfoComment V = PadToColumn 50 :: ops
           /\ pad_count ops = 0
           /\ emitted ops
              = txt ";" ++ uses_fragment V ++ debug_line_fragment V
                  ++ debug_variable_fragment V
     end.
Proof.
  destruct V as [[void ty] uses [[[DL|] [Name|Name|]]|]];
    destruct void;
    unfold printInfoComment, uses_fragment, debug_line_fragment,
      debug_variable_fragment;
    cbn [getType isVoidTy printType getNumUses asInstruction getDebugLoc
         instKind negb app pad_count txt list_ascii_of_string];
    (split; [lia|]);
    try reflexivity;
    (eexists; split; [reflexivity|]; split; [reflexivity|]);
    cbn [emitted app txt list_ascii_of_string];
    rewrite <- ?app_assoc; rewrite ?app_nil_r; reflexivity.
Qed.

Example printInfoComment_ex_declare :
  printInfoComment dbg_declare_x
  = [PadToColumn 50; Put (txt ";"); Put (txt " [debug variable = x]")].
Proof. reflexivity. Qed.

(** C4 as stated fails: for a non-void instruction with a debug location the
    text written is [; [#uses=2 type=i32] [debug line = 3:7]]; the second
    fragment has no [;] of its own, so no ["; [debug line = ...]"] is
    written. *)
Lemma printInfoComment_second_fragment_has_no_semicolon :
  isVoidTy (getType add_at_3_7) = false
  /\ emitted (printInfoComment add_at_3_7)
     = txt "; [#uses=2 type=i32] [debug line = 3:7]"
  /\ occurs (txt "; [debug line = ") (emitted (printInfoComment add_at_3_7))
     = false.
Proof.
  repeat split.
Qed.

(** * Further properties of the code *)

(** ** What a run may do *)

Lemma run_holds_ret (P : event -> Prop) {A} (a : A) : run_holds P (ret a).
Proof. split; [constructor | discriminate]. Qed.

Lemma run_holds_exit1 (P : event -> Prop) {A} : run_holds P (@exit A 1%Z).
Proof. split; [constructor | intros c H; inversion H; reflexivity]. Qed.

Lemma run_holds_emit (P : event -> Prop) (e : event) :
  P e -> run_holds P (emit e).
Proof. intros H. split; [repeat constructor; exact H | discriminate]. Qed.

Lemma run_holds_bind (P : event -> Prop) {A B} (m : Run A) (f : A -> Run B) :
  run_holds P m -> (forall a, run_holds P (f a)) -> run_holds P (bind m f).
Proof.
  intros [Hm Hc] Hf. destruct m as [t [a | c]]; unfold bind.
  - destruct (Hf a) as [Hfa Hfc]. destruct (f a) as [t' r].
    cbn [fst snd] in *.
    split; [apply Forall_app; split; [exact Hm | exact Hfa] | exact Hfc].
  - split; [exact Hm |].
    intros code H. inversion H; subst code. apply Hc. reflexivity.
Qed.

Section MayEvents.

Variables MemoryBuffer BitcodeModule Module ModuleSummaryIndex : Type.
Variable llvm : LLVM MemoryBuffer BitcodeModule Module ModuleSummaryIndex.
Variable argv0 : text.
Variable opts : Options.

Variable P : event -> Prop.
Hypothesis P_Errs : forall c t, P (Errs c t).
Hypothesis P_Open : forall F, P (OpenOutput F).
Hypothesis P_Keep : forall F, P (Keep F).
Hypothesis P_Lazy :
  PrintThinLTOIndexOnly opts = false -> P Call_getLazyModule.
Hypothesis P_Meta :
  PrintThinLTOIndexOnly opts = false -> MaterializeMetadata opts = true ->
  P Call_materializeMetadata.
Hypothesis P_All :
  PrintThinLTOIndexOnly opts = false -> MaterializeMetadata opts = false ->
  P Call_materializeAll.
Hypothesis P_Print :
  PrintThinLTOIndexOnly opts = false -> DontPrint opts = false ->
  P Call_HTMLWriter_print.
Hypothesis P_Write :
  forall F x, (DontPrint opts = true -> x = []) -> P (Write F x).
Hypothesis P_Read : forall f, P (ReadInput f).

Lemma handleDiagnostics_holds (DI : DiagnosticInfo) :
  run_holds P (handleDiagnostics argv0 DI).
Proof.
  unfold handleDiagnostics, WithColor_error, WithColor_warning,
    WithColor_note.
  destruct (getSeverity DI);
    repeat first [ apply run_holds_ret | apply run_holds_exit1
                 | apply run_holds_emit; apply P_Errs
                 | apply run_holds_bind; [| intros ? ] ].
Qed.

Lemma diagnose_holds (ds : list DiagnosticInfo) :
  run_holds P (diagnose argv0 ds).
Proof.
  induction ds as [|DI ds IH]; cbn [diagnose].
  - apply run_holds_ret.
  - apply run_holds_bind; [apply handleDiagnostics_holds | intros _; exact IH].
Qed.

Lemma in_context_holds {A} (call : list DiagnosticInfo * Expected A) :
  run_holds P (in_context argv0 call).
Proof.
  unfold in_context.
  apply run_holds_bind; [apply diagnose_holds | intros _; apply run_holds_ret].
Qed.

Lemma ExitOnErr_holds {A} (e : Expected A) : run_holds P (ExitOnErr argv0 e).
Proof.
  destruct e; cbn [ExitOnErr]; [apply run_holds_ret|].
  apply run_holds_bind; [apply run_holds_emit, P_Errs |
                         intros _; apply run_holds_exit1].
Qed.

Ltac may_step :=
  first [ apply run_holds_ret | apply run_holds_exit1 | apply ExitOnErr_holds
        | apply in_context_holds
        | apply run_holds_emit; solve [ apply P_Errs | apply P_Open
                                      | apply P_Keep | apply P_Read ]
        | apply run_holds_bind; [| intros ? ] ].

Lemma process_module_holds (InputFilename : text) (N I : nat)
      (MB : BitcodeModule) :
  run_holds P (process_module llvm argv0 opts InputFilename N I MB).
Proof.
  unfold process_module.
  destruct (PrintThinLTOIndexOnly opts) eqn:Eidx; cbv [negb].
  - rewrite bind_ret_l.
    pose (M := @None Module). change (@None Module) with M.
    assert (EM : M = None) by reflexivity. clearbody M.
    apply run_holds_bind; [apply ExitOnErr_holds | intros LTOInfo].
    apply run_holds_bind;
      [destruct (HasSummary LTOInfo); repeat may_step | intros Index].
    cbv zeta.
    apply run_holds_bind; [apply run_holds_emit, P_Open | intros _].
    destruct (ToolOutputFile_open llvm _); [repeat may_step|].
    subst M.
    destruct (DontPrint opts) eqn:ED; cbv [negb].
    + rewrite bind_ret_l. cbn [fst snd].
      apply run_holds_bind; [| intros _; apply run_holds_emit, P_Keep].
      apply run_holds_emit, P_Write. intros _. reflexivity.
    + rewrite bind_ret_l.
      apply run_holds_bind.
      * apply run_holds_bind; [| intros _; apply run_holds_ret].
        destruct Index; [|apply run_holds_ret].
        apply run_holds_emit, P_Write. intros H; discriminate.
      * intros Outs.
        apply run_holds_bind; [| intros _; apply run_holds_emit, P_Keep].
        apply run_holds_emit, P_Write. intros H; discriminate.
  - apply run_holds_bind.
    { apply run_holds_bind;
        [apply run_holds_emit, P_Lazy; reflexivity | intros _].
      apply run_holds_bind; [apply in_context_holds | intros e].
      apply run_holds_bind; [apply ExitOnErr_holds | intros M].
      destruct (MaterializeMetadata opts) eqn:Emeta.
      - apply run_holds_bind;
          [apply run_holds_emit, P_Meta; reflexivity | intros _].
        repeat may_step.
      - apply run_holds_bind;
          [apply run_holds_emit, P_All; reflexivity | intros _].
        repeat may_step. }
    intros M.
    apply run_holds_bind; [apply ExitOnErr_holds | intros LTOInfo].
    apply run_holds_bind;
      [destruct (HasSummary LTOInfo); repeat may_step | intros Index].
    cbv zeta.
    apply run_holds_bind; [apply run_holds_emit, P_Open | intros _].
    destruct (ToolOutputFile_open llvm _); [repeat may_step|].
    destruct (DontPrint opts) eqn:ED; cbv [negb].
    + rewrite bind_ret_l. cbn [fst snd].
      apply run_holds_bind; [| intros _; apply run_holds_emit, P_Keep].
      apply run_holds_emit, P_Write. intros _. reflexivity.
    + apply run_holds_bind.
      * apply run_holds_bind.
        -- destruct M as [M|]; [|apply run_holds_ret].
           apply run_holds_bind; [| intros _; apply run_holds_ret].
           apply run_holds_emit, P_Print; reflexivity.
        -- intros Outs.
           apply run_holds_bind; [| intros _; apply run_holds_ret].
           destruct Index; [|apply run_holds_ret].
           apply run_holds_emit, P_Write. intros H; discriminate.
      * intros Outs.
        apply run_holds_bind; [| intros _; apply run_holds_emit, P_Keep].
        apply run_holds_emit, P_Write. intros H; discriminate.
Qed.

Lemma for_modules_holds (InputFilename : text) (N : nat)
      (Mods : list BitcodeModule) :
  forall I,
    run_holds P (for_modules llvm argv0 opts InputFilename N I Mods).
Proof.
  induction Mods as [|MB Mods IH]; intros I; cbn [for_modules].
  - apply run_holds_ret.
  - apply run_holds_bind; [apply process_module_holds | intros _; apply IH].
Qed.

Lemma after_reading_holds (InputFilename : text) (MB : MemoryBuffer) :
  run_holds P
    (bind (ExitOnErr argv0 (getBitcodeFileContents llvm MB))
          (fun Mods =>
             bind (if text_eqb (OutputFilename opts) (txt "-")
                      && (1 <? length Mods)
                   then emit (Errs None
                                (txt "only single module bitcode files can be written to stdout"
                                 ++ [NL]))
                   else ret tt)
                  (fun _ =>
                     for_modules llvm argv0 opts InputFilename
                                 (length Mods) 0 Mods))).
Proof.
  apply run_holds_bind; [apply ExitOnErr_holds | intros Mods].
  apply run_holds_bind; [| intros _; apply for_modules_holds].
  destruct (_ && _); repeat may_step.
Qed.

Lemma process_input_holds (InputFilename : text) :
  run_holds P (process_input llvm argv0 opts InputFilename).
Proof.
  unfold process_input.
  apply run_holds_bind; [apply run_holds_emit, P_Read | intros _].
  destruct (getFileOrSTDIN llvm InputFilename) as [MB | message].
  - apply after_reading_holds.
  - unfold WithColor_error. repeat may_step.
Qed.

Lemma for_inputs_holds (Inputs : list text) :
  run_holds P (for_inputs llvm argv0 opts Inputs).
Proof.
  induction Inputs as [|f Inputs IH]; cbn [for_inputs].
  - apply run_holds_ret.
  - apply run_holds_bind; [apply process_input_holds | intros _; exact IH].
Qed.

Lemma main_holds :
  Forall P (fst (main llvm argv0 opts))
  /\ (snd (main llvm argv0 opts) = 0%Z \/ snd (main llvm argv0 opts) = 1%Z).
Proof.
  unfold main.
  match goal with
  | |- context [match ?r with _ => _ end] =>
      assert (H : run_holds P r)
  end.
  { destruct (_ <? 1); [apply for_inputs_holds|].
    destruct (_ && _); [repeat may_step | apply for_inputs_holds]. }
  match type of H with
  | run_holds _ ?r => destruct r as [t [u | c]]
  end; destruct H as [Ht Hc]; cbn [fst snd] in *.
  - split; [exact Ht | left; reflexivity].
  - split; [exact Ht | right; apply Hc; reflexivity].
Qed.

End MayEvents.

(** [main] returns 0 or 1, whatever the command line, the files and the
    library do: every early end of the process ([return 1], [ExitOnErr],
    the diagnostic handler) uses status 1. *)
Theorem main_exit_status_is_0_or_1
        (MemoryBuffer BitcodeModule Module ModuleSummaryIndex : Type)
        (llvm : LLVM MemoryBuffer BitcodeModule Module ModuleSummaryIndex)
        (argv0 : text) (opts : Options) :
  snd (main llvm argv0 opts) = 0%Z \/ snd (main llvm argv0 opts) = 1%Z.
Proof.
  apply (main_holds _ _ _ _ llvm argv0 opts (fun _ => True)); auto.
Qed.

(** With [--disable-output], [HTMLWriter::print] is never called and every
    write to an output is a write of the empty text, whatever the other
    options are. *)
Theorem disable_output_writes_nothing
        (MemoryBuffer BitcodeModule Module ModuleSummaryIndex : Type)
        (llvm : LLVM MemoryBuffer BitcodeModule Module ModuleSummaryIndex)
        (argv0 : text) (opts : Options) :
  DontPrint opts = true ->
  Forall (fun e => match e with
                   | Write _ x => x = []
                   | Call_HTMLWriter_print => False
                   | _ => True
                   end)
         (fst (main llvm argv0 opts)).
Proof.
  intros HD.
  apply (main_holds _ _ _ _ llvm argv0 opts
           (fun e => match e with
                     | Write _ x => x = []
                     | Call_HTMLWriter_print => False
                     | _ => True
                     end)); auto.
  intros _ H. congruence.
Qed.

Lemma disable_output_writes_nothing_witness :
  Forall (fun e => match e with
                   | Write _ x => x = []
                   | Call_HTMLWriter_print => False
                   | _ => True
                   end)
         (fst (main (toy_llvm (fun _ => Some [toy_plain; toy_with_summary]))
                    (txt "llvm-html")
                    (with_disable_output (no_options [txt "a.bc"])))).
Proof.
  apply disable_output_writes_nothing. reflexivity.
Defined.

(** Only one of the two materialisations is ever called in a run:
    [materializeAll] is never called with [--materialize-metadata], and
    [materializeMetadata] is never called without it. *)
Theorem main_materializes_one_way
        (MemoryBuffer BitcodeModule Module ModuleSummaryIndex : Type)
        (llvm : LLVM MemoryBuffer BitcodeModule Module ModuleSummaryIndex)
        (argv0 : text) (opts : Options) :
  Forall (fun e => e <> (if MaterializeMetadata opts
                         then Call_materializeAll
                         else Call_materializeMetadata))
         (fst (main llvm argv0 opts)).
Proof.
  apply (main_holds _ _ _ _ llvm argv0 opts
           (fun e => e <> (if MaterializeMetadata opts
                           then Call_materializeAll
                           else Call_materializeMetadata)));
    try (intros; destruct (MaterializeMetadata opts); discriminate).
Qed.

(** ** The order in which the inputs are read *)

Lemma bind_emit {A} (e : event) (k : unit -> Run A) :
  bind (emit e) k = (e :: fst (k tt), snd (k tt)).
Proof. unfold bind, emit. destruct (k tt). reflexivity. Qed.

Lemma bind_ok {A B} (t : list event) (a : A) (f : A -> Run B) :
  bind (t, Ok a) f = (t ++ fst (f a), snd (f a)).
Proof. unfold bind. destruct (f a). reflexivity. Qed.

Lemma bind_exited {A B} (t : list event) (c : Z) (f : A -> Run B) :
  bind (t, Exited c) f = (t, Exited c).
Proof. reflexivity. Qed.

Lemma inputs_read_app (a b : list event) :
  inputs_read (a ++ b) = inputs_read a ++ inputs_read b.
Proof.
  induction a as [|e a IH]; [reflexivity|].
  destruct e; cbn [app inputs_read]; rewrite IH; reflexivity.
Qed.

Lemma inputs_read_none (t : list event) :
  Forall (fun e => match e with ReadInput _ => False | _ => True end) t ->
  inputs_read t = [].
Proof.
  induction 1 as [|e t He _ IH]; [reflexivity|].
  destruct e; cbn [inputs_read]; try exact IH. contradiction.
Qed.

Section ReadingInputs.

Variables MemoryBuffer BitcodeModule Module ModuleSummaryIndex : Type.
Variable llvm : LLVM MemoryBuffer BitcodeModule Module ModuleSummaryIndex.
Variable argv0 : text.
Variable opts : Options.

Lemma process_input_reads (InputFilename : text) :
  inputs_read (fst (process_input llvm argv0 opts InputFilename))
  = [InputFilename].
Proof.
  unfold process_input. rewrite bind_emit. cbn [fst inputs_read].
  f_equal. apply inputs_read_none.
  destruct (getFileOrSTDIN llvm InputFilename) as [MB | message].
  - apply (after_reading_holds _ _ _ _ llvm argv0 opts
             (fun e => match e with ReadInput _ => False | _ => True end));
      auto.
  - repeat constructor.
Qed.

Lemma for_inputs_reads (Inputs : list text) :
  exists rest,
    Inputs = inputs_read (fst (for_inputs llvm argv0 opts Inputs)) ++ rest
    /\ forall u, snd (for_inputs llvm argv0 opts Inputs) = Ok u -> rest = [].
Proof.
  induction Inputs as [|f Inputs IH]; cbn [for_inputs].
  - exists []. split; [reflexivity | reflexivity].
  - pose proof (process_input_reads f) as Hf.
    destruct (process_input llvm argv0 opts f) as [t [u | c]];
      cbn [fst] in Hf.
    + rewrite bind_ok. cbn [fst snd]. destruct IH as (rest & Hrest & Hok).
      exists rest. rewrite inputs_read_app, Hf. split.
      * cbn [app]. f_equal. exact Hrest.
      * exact Hok.
    + rewrite bind_exited. cbn [fst snd]. exists Inputs. rewrite Hf.
      split; [reflexivity | discriminate].
Qed.

End ReadingInputs.

(** The inputs are read in the order of the command line, each at most once
    (standard input alone when no input is named): the names read are an
    initial part of the list, and the whole list when [main] returns 0. *)
Theorem main_reads_inputs_in_order
        (MemoryBuffer BitcodeModule Module ModuleSummaryIndex : Type)
        (llvm : LLVM MemoryBuffer BitcodeModule Module ModuleSummaryIndex)
        (argv0 : text) (opts : Options) :
  exists rest,
    match InputFilenames opts with
    | [] => [txt "-"]
    | _ :: _ => InputFilenames opts
    end
    = inputs_read (fst (main llvm argv0 opts)) ++ rest
    /\ (snd (main llvm argv0 opts) = 0%Z -> rest = []).
Proof.
  assert (Hloop : forall Inputs,
             exists rest,
               Inputs
               = inputs_read
                   (fst (let run := for_inputs llvm argv0 opts Inputs in
                         match run with
                         | (t, Ok _) => (t, 0%Z)
                         | (t, Exited code) => (t, code)
                         end)) ++ rest
               /\ (snd (let run := for_inputs llvm argv0 opts Inputs in
                        match run with
                        | (t, Ok _) => (t, 0%Z)
                        | (t, Exited code) => (t, code)
                        end) = 0%Z -> rest = [])).
  { intros Inputs.
    destruct (for_inputs_reads _ _ _ _ llvm argv0 opts Inputs)
      as (rest & Hrest & Hok).
    pose proof (for_inputs_holds _ _ _ _ llvm argv0 opts (fun _ => True)
                  (fun _ _ => I) (fun _ => I) (fun _ => I) (fun _ => I)
                  (fun _ _ => I) (fun _ _ => I) (fun _ _ => I)
                  (fun _ _ _ => I) (fun _ => I) Inputs) as [_ Hexit].
    destruct (for_inputs llvm argv0 opts Inputs) as [t [u | c]];
      cbn [fst snd] in *; exists rest; split; try exact Hrest.
    - intros _. apply (Hok u). reflexivity.
    - intros Hc. specialize (Hexit c eq_refl). congruence. }
  unfold main.
  destruct (InputFilenames opts) as [|f Inputs] eqn:EI.
  - cbn [length Nat.ltb Nat.leb app]. apply (Hloop [txt "-"]).
  - destruct Inputs as [|g Inputs].
    + cbn [length Nat.ltb Nat.leb andb]. apply (Hloop [f]).
    + cbn [length Nat.ltb Nat.leb andb].
      destruct (empty (OutputFilename opts)); cbn [negb].
      * apply (Hloop (f :: g :: Inputs)).
      * exists (f :: g :: Inputs). split; [reflexivity | discriminate].
Qed.

(** ** The discipline of the outputs *)

Lemma outputs_ok_app (st : option text) (a b : list event) :
  outputs_ok st (a ++ b)
  = match outputs_ok st a with
    | Some st' => outputs_ok st' b
    | None => None
    end.
Proof.
  revert st. induction a as [|e a IH]; intros st; [reflexivity|].
  destruct e; cbn [app outputs_ok]; try apply IH.
  - destruct st; [reflexivity | apply IH].
  - destruct st as [G|]; [|reflexivity].
    destruct (text_eqb Filename G); [apply IH | reflexivity].
  - destruct st as [G|]; [|reflexivity].
    destruct (text_eqb Filename G); [apply IH | reflexivity].
Qed.

Lemma outputs_ok_quiet (st : option text) (t : list event) :
  Forall (fun e => is_output_event e = false) t ->
  outputs_ok st t = Some st.
Proof.
  induction 1 as [|e t He _ IH]; [reflexivity|].
  destruct e; cbn [outputs_ok]; try exact IH; discriminate.
Qed.

Lemma disciplined_ret {A} (a : A) : disciplined (ret a).
Proof. exists None. split; reflexivity. Qed.

Lemma disciplined_bind {A B} (m : Run A) (f : A -> Run B) :
  disciplined m -> (forall a, disciplined (f a)) -> disciplined (bind m f).
Proof.
  intros (st & Hst & Hok) Hf. destruct m as [t [a | c]].
  - rewrite bind_ok. cbn [fst snd] in *.
    destruct (Hf a) as (st' & Hst' & Hok').
    exists st'. cbn [fst snd].
    rewrite outputs_ok_app, Hst, (Hok a eq_refl).
    split; assumption.
  - rewrite bind_exited. exists st. split; [exact Hst | discriminate].
Qed.

Lemma disciplined_quiet_bind {A B} (m : Run A) (f : A -> Run B) :
  run_holds (fun e => is_output_event e = false) m ->
  (forall a, disciplined (f a)) -> disciplined (bind m f).
Proof.
  intros [Hq _] Hf. apply disciplined_bind; [|exact Hf].
  exists None. split; [apply outputs_ok_quiet, Hq | reflexivity].
Qed.

Section Outputs.

Variables MemoryBuffer BitcodeModule Module ModuleSummaryIndex : Type.
Variable llvm : LLVM MemoryBuffer BitcodeModule Module ModuleSummaryIndex.
Variable argv0 : text.
Variable opts : Options.

Let quiet (e : event) : Prop := is_output_event e = false.

Ltac quiet_run :=
  repeat first
    [ apply run_holds_ret | apply run_holds_exit1
    | apply ExitOnErr_holds; intros; reflexivity
    | apply in_context_holds; intros; reflexivity
    | apply run_holds_emit; reflexivity
    | apply run_holds_bind; [| intros ? ] ].

Lemma process_module_disciplined (InputFilename : text) (N I : nat)
      (MB : BitcodeModule) :
  disciplined (process_module llvm argv0 opts InputFilename N I MB).
Proof.
  unfold process_module.
  apply disciplined_quiet_bind.
  { destruct (negb (PrintThinLTOIndexOnly opts)); [|apply run_holds_ret].
    apply run_holds_bind; [apply run_holds_emit; reflexivity | intros _].
    apply run_holds_bind;
      [apply in_context_holds; intros; reflexivity | intros e].
    apply run_holds_bind;
      [apply ExitOnErr_holds; intros; reflexivity | intros M].
    destruct (MaterializeMetadata opts); quiet_run. }
  intros M.
  apply disciplined_quiet_bind;
    [apply ExitOnErr_holds; intros; reflexivity | intros LTOInfo].
  apply disciplined_quiet_bind.
  { destruct (HasSummary LTOInfo); quiet_run. }
  intros Index. cbv zeta.
  set (F := FinalFilename opts InputFilename N I).
  rewrite bind_emit.
  destruct (ToolOutputFile_open llvm F).
  { exists (Some F). split; [reflexivity | discriminate]. }
  exists None.
  destruct (DontPrint opts), M as [M|], Index as [Index|];
    cbv [negb bind emit ret fst snd app];
    cbn [outputs_ok]; rewrite ?text_eqb_refl; cbn [outputs_ok];
    rewrite ?text_eqb_refl; split; reflexivity.
Qed.

Lemma for_modules_disciplined (InputFilename : text) (N : nat)
      (Mods : list BitcodeModule) :
  forall I,
    disciplined (for_modules llvm argv0 opts InputFilename N I Mods).
Proof.
  induction Mods as [|MB Mods IH]; intros I; cbn [for_modules].
  - apply disciplined_ret.
  - apply disciplined_bind;
      [apply process_module_disciplined | intros _; apply IH].
Qed.

Lemma process_input_disciplined (InputFilename : text) :
  disciplined (process_input llvm argv0 opts InputFilename).
Proof.
  unfold process_input.
  apply disciplined_quiet_bind;
    [apply run_holds_emit; reflexivity | intros _].
  destruct (getFileOrSTDIN llvm InputFilename) as [MB | message].
  - apply disciplined_quiet_bind;
      [apply ExitOnErr_holds; intros; reflexivity | intros Mods].
    cbv zeta. apply disciplined_quiet_bind;
      [| intros _; apply for_modules_disciplined].
    destruct (_ && _); quiet_run.
  - exists None. split; [reflexivity | discriminate].
Qed.

Lemma for_inputs_disciplined (Inputs : list text) :
  disciplined (for_inputs llvm argv0 opts Inputs).
Proof.
  induction Inputs as [|f Inputs IH]; cbn [for_inputs].
  - apply disciplined_ret.
  - apply disciplined_bind;
      [apply process_input_disciplined | intros _; exact IH].
Qed.

End Outputs.

(** In every run the outputs are handled one at a time: an output is opened
    only when the previous one has been kept, every write and every [keep]
    goes to the output that is open, and when [main] returns 0 every output
    that was opened has been kept. *)
Theorem main_keeps_what_it_opens
        (MemoryBuffer BitcodeModule Module ModuleSummaryIndex : Type)
        (llvm : LLVM MemoryBuffer BitcodeModule Module ModuleSummaryIndex)
        (argv0 : text) (opts : Options) :
  exists pending,
    outputs_ok None (fst (main llvm argv0 opts)) = Some pending
    /\ (snd (main llvm argv0 opts) = 0%Z -> pending = None).
Proof.
  assert (Hloop : forall Inputs,
             exists pending,
               outputs_ok None
                 (fst (let run := for_inputs llvm argv0 opts Inputs in
                       match run with
                       | (t, Ok _) => (t, 0%Z)
                       | (t, Exited code) => (t, code)
                       end)) = Some pending
               /\ (snd (let run := for_inputs llvm argv0 opts Inputs in
                        match run with
                        | (t, Ok _) => (t, 0%Z)
                        | (t, Exited code) => (t, code)
                        end) = 0%Z -> pending = None)).
  { intros Inputs.
    destruct (for_inputs_disciplined _ _ _ _ llvm argv0 opts Inputs)
      as (st & Hst & Hok).
    pose proof (for_inputs_holds _ _ _ _ llvm argv0 opts (fun _ => True)
                  (fun _ _ => I) (fun _ => I) (fun _ => I) (fun _ => I)
                  (fun _ _ => I) (fun _ _ => I) (fun _ _ => I)
                  (fun _ _ _ => I) (fun _ => I) Inputs) as [_ Hexit].
    destruct (for_inputs llvm argv0 opts Inputs) as [t [u | c]];
      cbn [fst snd] in *; exists st; split; try exact Hst.
    - intros _. apply (Hok u). reflexivity.
    - intros Hc. specialize (Hexit c eq_refl). congruence. }
  unfold main.
  destruct (length (InputFilenames opts) <? 1); [apply Hloop|].
  destruct (_ && _); [|apply Hloop].
  exists None. split; [reflexivity | discriminate].
Qed.

(** ** Inputs that fail, and no input at all *)

(** A command line that names no input is run as if it named the
    standard-input sentinel ["-"] alone. *)
Theorem main_without_input_reads_stdin
        (MemoryBuffer BitcodeModule Module ModuleSummaryIndex : Type)
        (llvm : LLVM MemoryBuffer BitcodeModule Module ModuleSummaryIndex)
        (argv0 : text) (opts : Options) :
  InputFilenames opts = [] ->
  main llvm argv0 opts = main llvm argv0 (with_inputs [txt "-"] opts).
Proof.
  destruct opts as [Inputs o f d si sa p mm idx]. cbn [InputFilenames].
  intros ->. reflexivity.
Qed.

Lemma main_without_input_reads_stdin_witness :
  main (toy_llvm (fun _ => Some [toy_plain])) (txt "llvm-html") (no_options [])
  = main (toy_llvm (fun _ => Some [toy_plain])) (txt "llvm-html")
         (with_inputs [txt "-"] (no_options [])).
Proof.
  apply main_without_input_reads_stdin. reflexivity.
Defined.

(** When the first input cannot be read, [main] reports it as
    ["error: " (in colour) <name>: <message>] and returns 1: no later input
    is read and no output is opened. *)
Theorem main_stops_at_unreadable_input
        (MemoryBuffer BitcodeModule Module ModuleSummaryIndex : Type)
        (llvm : LLVM MemoryBuffer BitcodeModule Module ModuleSummaryIndex)
        (argv0 : text) (opts : Options)
        (InputFilename : text) (Inputs : list text) (message : text) :
  InputFilenames opts = InputFilename :: Inputs ->
  empty (OutputFilename opts) = true \/ Inputs = [] ->
  getFileOrSTDIN llvm InputFilename = Failure message ->
  main llvm argv0 opts
  = ([ReadInput InputFilename;
      Errs (Some HC_Error) (txt "error: ");
      Errs None (InputFilename ++ txt ": " ++ message ++ [NL])],
     1%Z).
Proof.
  intros HI Hguard Hread. unfold main. rewrite HI.
  assert (Hg : (1 <? length (InputFilename :: Inputs))
               && negb (empty (OutputFilename opts)) = false).
  { destruct Hguard as [-> | ->]; [apply andb_false_r | reflexivity]. }
  rewrite Hg. cbn [length Nat.ltb Nat.leb for_inputs].
  unfold process_input. rewrite Hread. reflexivity.
Qed.

Lemma main_stops_at_unreadable_input_witness :
  main (toy_llvm (fun _ => None)) (txt "llvm-html")
       (no_options [txt "missing.bc"; txt "b.bc"])
  = ([ReadInput (txt "missing.bc");
      Errs (Some HC_Error) (txt "error: ");
      Errs None (txt "missing.bc" ++ txt ": "
                 ++ txt "No such file or directory" ++ [NL])],
     1%Z).
Proof.
  apply (main_stops_at_unreadable_input _ _ _ _ (toy_llvm (fun _ => None))
           (txt "llvm-html") (no_options [txt "missing.bc"; txt "b.bc"])
           (txt "missing.bc") [txt "b.bc"]);
    [reflexivity | left; reflexivity | reflexivity].
Defined.

(** When the first input is read but is not a bitcode container, [main]
    writes the banner [<program>: error: ], the message of the error and a
    newline, and ends with status 1: no module is loaded and no output is
    opened. *)
Theorem main_stops_at_malformed_input
        (MemoryBuffer BitcodeModule Module ModuleSummaryIndex : Type)
        (llvm : LLVM MemoryBuffer BitcodeModule Module ModuleSummaryIndex)
        (argv0 : text) (opts : Options)
        (InputFilename : text) (Inputs : list text)
        (MB : MemoryBuffer) (message : text) :
  InputFilenames opts = InputFilename :: Inputs ->
  empty (OutputFilename opts) = true \/ Inputs = [] ->
  getFileOrSTDIN llvm InputFilename = Success MB ->
  getBitcodeFileContents llvm MB = Failure message ->
  main llvm argv0 opts
  = ([ReadInput InputFilename;
      Errs None ((argv0 ++ txt ": error: ") ++ message ++ [NL])],
     1%Z).
Proof.
  intros HI Hguard Hread Hdecode. unfold main. rewrite HI.
  assert (Hg : (1 <? length (InputFilename :: Inputs))
               && negb (empty (OutputFilename opts)) = false).
  { destruct Hguard as [-> | ->]; [apply andb_false_r | reflexivity]. }
  rewrite Hg. cbn [length Nat.ltb Nat.leb for_inputs].
  unfold process_input. rewrite Hread, Hdecode. reflexivity.
Qed.

Lemma main_stops_at_malformed_input_witness :
  main (faulty_llvm false None []) (txt "llvm-html")
       (no_options [txt "a.bc"; txt "b.bc"])
  = ([ReadInput (txt "a.bc");
      Errs None ((txt "llvm-html" ++ txt ": error: ")
                 ++ txt "Invalid bitcode signature" ++ [NL])],
     1%Z).
Proof.
  apply (main_stops_at_malformed_input _ _ _ _ (faulty_llvm false None [])
           (txt "llvm-html") (no_options [txt "a.bc"; txt "b.bc"])
           (txt "a.bc") [txt "b.bc"] tt);
    [reflexivity | left; reflexivity | reflexivity | reflexivity].
Defined.

(** ** One module, from loading to the kept output *)

Lemma diagnose_no_error (Prefix : text) (ds : list DiagnosticInfo) :
  existsb is_error ds = false ->
  diagnose Prefix ds = (report Prefix ds, Ok tt).
Proof.
  induction ds as [|DI ds IH]; [reflexivity|].
  cbn [existsb diagnose report]. intros H.
  apply orb_false_iff in H. destruct H as [HDI Hds].
  rewrite (IH Hds).
  assert (E : handleDiagnostics Prefix DI = (report_one Prefix DI, Ok true)).
  { unfold is_error in HDI. unfold handleDiagnostics, report_one.
    destruct (getSeverity DI); try discriminate; reflexivity. }
  rewrite E, bind_ok. reflexivity.
Qed.

Lemma existsb_is_error_app (a b : list DiagnosticInfo) :
  existsb is_error (a ++ b) = false ->
  existsb is_error a = false /\ existsb is_error b = false.
Proof.
  rewrite existsb_app. apply orb_false_iff.
Qed.

Section OneModule.

Variables MemoryBuffer BitcodeModule Module ModuleSummaryIndex : Type.
Variable llvm : LLVM MemoryBuffer BitcodeModule Module ModuleSummaryIndex.
Variable argv0 : text.
Variable opts : Options.
Variables (InputFilename : text) (N I : nat) (MB : BitcodeModule).
Variables (ds1 ds2 : list DiagnosticInfo) (M0 M1 : Module).
Variables (LTOInfo : BitcodeLTOInfo) (Index : option ModuleSummaryIndex).

Hypothesis not_index_only : PrintThinLTOIndexOnly opts = false.
Hypothesis loads :
  getLazyModule llvm MB (MaterializeMetadata opts) (SetImporting opts)
  = (ds1, Success M0).
Hypothesis materializes :
  (if MaterializeMetadata opts
   then materializeMetadata llvm M0 else materializeAll llvm M0)
  = (ds2, Success M1).
Hypothesis no_error : existsb is_error (ds1 ++ ds2) = false.
Hypothesis lto_info : getLTOInfo llvm MB = Success LTOInfo.
Hypothesis summary :
  match Index with
  | Some Idx => HasSummary LTOInfo = true /\ getSummary llvm MB = Success Idx
  | None => HasSummary LTOInfo = false
  end.

(** What is done until the output is opened. *)
Lemma process_module_loaded {A} (rest : option Module -> option ModuleSummaryIndex -> Run A) :
  bind (if negb (PrintThinLTOIndexOnly opts) then
          bind (emit Call_getLazyModule) (fun _ =>
          bind (in_context argv0
                  (getLazyModule llvm MB (MaterializeMetadata opts)
                                 (SetImporting opts))) (fun e =>
          bind (ExitOnErr argv0 e) (fun M =>
          if MaterializeMetadata opts then
            bind (emit Call_materializeMetadata) (fun _ =>
            bind (in_context argv0 (materializeMetadata llvm M)) (fun e =>
            bind (ExitOnErr argv0 e) (fun M => ret (Some M))))
          else
            bind (emit Call_materializeAll) (fun _ =>
            bind (in_context argv0 (materializeAll llvm M)) (fun e =>
            bind (ExitOnErr argv0 e) (fun M => ret (Some M)))))))
        else ret None)
       (fun M =>
          bind (ExitOnErr argv0 (getLTOInfo llvm MB)) (fun LTOInfo =>
          bind (if HasSummary LTOInfo then
                  bind (ExitOnErr argv0 (getSummary llvm MB))
                       (fun Index => ret (Some Index))
                else ret None)
               (fun Index => rest M Index)))
  = ([Call_getLazyModule] ++ report argv0 ds1
       ++ [if MaterializeMetadata opts
           then Call_materializeMetadata else Call_materializeAll]
       ++ report argv0 ds2 ++ fst (rest (Some M1) Index),
     snd (rest (Some M1) Index)).
Proof.
  destruct (existsb_is_error_app _ _ no_error) as [H1 H2].
  match goal with
  | |- bind ?m _ = _ =>
      assert (Hload : m = ([Call_getLazyModule] ++ report argv0 ds1
                             ++ [if MaterializeMetadata opts
                                 then Call_materializeMetadata
                                 else Call_materializeAll]
                             ++ report argv0 ds2,
                           Ok (Some M1)))
  end.
  { rewrite not_index_only. cbv [negb].
    unfold in_context. rewrite loads. cbn [fst snd].
    rewrite (diagnose_no_error argv0 ds1 H1).
    cbv [bind emit ret ExitOnErr fst snd].
    destruct (MaterializeMetadata opts); rewrite materializes;
      cbn [fst snd]; rewrite (diagnose_no_error argv0 ds2 H2);
      cbn [app]; rewrite ?app_nil_r; rewrite <- ?app_assoc; reflexivity. }
  rewrite Hload, bind_ok. cbn [fst snd].
  rewrite lto_info.
  change (ExitOnErr argv0 (Success LTOInfo)) with (@ret BitcodeLTOInfo LTOInfo).
  rewrite bind_ret_l.
  assert (Hsum : (if HasSummary LTOInfo then
                    bind (ExitOnErr argv0 (getSummary llvm MB))
                         (fun Idx => ret (Some Idx))
                  else ret None) = ([], Ok Index)).
  { destruct Index as [Idx|].
    - destruct summary as [-> ->]. reflexivity.
    - rewrite summary. reflexivity. }
  rewrite Hsum, bind_ok. cbn [fst snd app].
  rewrite <- !app_assoc. reflexivity.
Qed.

End OneModule.

(** A module that loads and materialises without an error diagnostic, and
    whose output opens (no [--print-thinlto-index-only], no
    [--disable-output]): the diagnostics of the loader are reported, the
    module that is printed is the materialised one, with the annotation
    writer exactly when [--show-annotations] is given; the output receives
    the rendered summary index first, when the module has one, then the
    printed body with the CSS inlined, and is kept. *)
Theorem process_module_writes_inlined_text
        (MemoryBuffer BitcodeModule Module ModuleSummaryIndex : Type)
        (llvm : LLVM MemoryBuffer BitcodeModule Module ModuleSummaryIndex)
        (argv0 : text) (opts : Options)
        (InputFilename : text) (N I : nat) (MB : BitcodeModule)
        (ds1 ds2 : list DiagnosticInfo) (M0 M1 : Module)
        (LTOInfo : BitcodeLTOInfo) (Index : option ModuleSummaryIndex) :
  PrintThinLTOIndexOnly opts = false ->
  DontPrint opts = false ->
  getLazyModule llvm MB (MaterializeMetadata opts) (SetImporting opts)
  = (ds1, Success M0) ->
  (if MaterializeMetadata opts
   then materializeMetadata llvm M0 else materializeAll llvm M0)
  = (ds2, Success M1) ->
  existsb is_error (ds1 ++ ds2) = false ->
  getLTOInfo llvm MB = Success LTOInfo ->
  match Index with
  | Some Idx => HasSummary LTOInfo = true /\ getSummary llvm MB = Success Idx
  | None => HasSummary LTOInfo = false
  end ->
  ToolOutputFile_open llvm (FinalFilename opts InputFilename N I) = None ->
  process_module llvm argv0 opts InputFilename N I MB
  = ([Call_getLazyModule] ++ report argv0 ds1
       ++ [if MaterializeMetadata opts
           then Call_materializeMetadata else Call_materializeAll]
       ++ report argv0 ds2
       ++ [OpenOutput (FinalFilename opts InputFilename N I);
           Call_HTMLWriter_print]
       ++ match Index with
          | Some Idx =>
              [Write (FinalFilename opts InputFilename N I)
                     (Index_print llvm Idx)]
          | None => []
          end
       ++ [Write (FinalFilename opts InputFilename N I)
                 (inlineCSS
                    (fst (HTMLWriter_print llvm M1
                            (if ShowAnnotations opts
                             then Some CommentWriter else None)
                            (PreserveAssemblyUseListOrder opts)))
                    (snd (HTMLWriter_print llvm M1
                            (if ShowAnnotations opts
                             then Some CommentWriter else None)
                            (PreserveAssemblyUseListOrder opts))));
           Keep (FinalFilename opts InputFilename N I)],
     Ok tt).
Proof.
  intros Hidx HD Hload Hmat Herr Hlto Hsum Hopen.
  unfold process_module.
  rewrite (process_module_loaded _ _ _ _ llvm argv0 opts MB ds1 ds2 M0 M1
             LTOInfo Index Hidx Hload Hmat Herr Hlto Hsum).
  cbv zeta. rewrite Hopen, HD. cbv [negb].
  destruct Index as [Idx|];
    cbv [bind emit ret fst snd]; cbn [app]; reflexivity.
Qed.

Lemma process_module_writes_inlined_text_witness :
  process_module (faulty_llvm true None [a_warning]) (txt "llvm-html")
                 (no_options [txt "a.bc"]) (txt "a.bc") 1 0 toy_plain
  = ([Call_getLazyModule] ++ report (txt "llvm-html") [a_warning]
       ++ [Call_materializeAll]
       ++ report (txt "llvm-html") []
       ++ [OpenOutput (txt "a.html"); Call_HTMLWriter_print]
       ++ []
       ++ [Write (txt "a.html")
                 (inlineCSS (txt "<html><link rel=stylesheet></html>")
                            (txt "a{}"));
           Keep (txt "a.html")],
     Ok tt).
Proof.
  apply (process_module_writes_inlined_text _ _ _ _
           (faulty_llvm true None [a_warning]) (txt "llvm-html")
           (no_options [txt "a.bc"]) (txt "a.bc") 1 0 toy_plain
           [a_warning] [] toy_plain toy_plain (mkBitcodeLTOInfo false) None);
    reflexivity.
Defined.

(** When the output of such a module cannot be opened, the message of the
    error and a newline are written to the error stream and the process ends
    with status 1: the module is not printed, and nothing is written to the
    output or kept. *)
Theorem process_module_stops_when_output_fails
        (MemoryBuffer BitcodeModule Module ModuleSummaryIndex : Type)
        (llvm : LLVM MemoryBuffer BitcodeModule Module ModuleSummaryIndex)
        (argv0 : text) (opts : Options)
        (InputFilename : text) (N I : nat) (MB : BitcodeModule)
        (ds1 ds2 : list DiagnosticInfo) (M0 M1 : Module)
        (LTOInfo : BitcodeLTOInfo) (Index : option ModuleSummaryIndex)
        (message : text) :
  PrintThinLTOIndexOnly opts = false ->
  getLazyModule llvm MB (MaterializeMetadata opts) (SetImporting opts)
  = (ds1, Success M0) ->
  (if MaterializeMetadata opts
   then materializeMetadata llvm M0 else materializeAll llvm M0)
  = (ds2, Success M1) ->
  existsb is_error (ds1 ++ ds2) = false ->
  getLTOInfo llvm MB = Success LTOInfo ->
  match Index with
  | Some Idx => HasSummary LTOInfo = true /\ getSummary llvm MB = Success Idx
  | None => HasSummary LTOInfo = false
  end ->
  ToolOutputFile_open llvm (FinalFilename opts InputFilename N I)
  = Some message ->
  process_module llvm argv0 opts InputFilename N I MB
  = ([Call_getLazyModule] ++ report argv0 ds1
       ++ [if MaterializeMetadata opts
           then Call_materializeMetadata else Call_materializeAll]
       ++ report argv0 ds2
       ++ [OpenOutput (FinalFilename opts InputFilename N I);
           Errs None (message ++ [NL])],
     Exited 1%Z).
Proof.
  intros Hidx Hload Hmat Herr Hlto Hsum Hopen.
  unfold process_module.
  rewrite (process_module_loaded _ _ _ _ llvm argv0 opts MB ds1 ds2 M0 M1
             LTOInfo Index Hidx Hload Hmat Herr Hlto Hsum).
  cbv zeta. rewrite Hopen. reflexivity.
Qed.

Lemma process_module_stops_when_output_fails_witness :
  process_module (faulty_llvm true (Some (txt "Permission denied")) [])
                 (txt "llvm-html")
                 (no_options [txt "a.bc"]) (txt "a.bc") 1 0 toy_plain
  = ([Call_getLazyModule] ++ report (txt "llvm-html") []
       ++ [Call_materializeAll]
       ++ report (txt "llvm-html") []
       ++ [OpenOutput (txt "a.html");
           Errs None (txt "Permission denied" ++ [NL])],
     Exited 1%Z).
Proof.
  apply (process_module_stops_when_output_fails _ _ _ _
           (faulty_llvm true (Some (txt "Permission denied")) [])
           (txt "llvm-html")
           (no_options [txt "a.bc"]) (txt "a.bc") 1 0 toy_plain
           [] [] toy_plain toy_plain (mkBitcodeLTOInfo false) None);
    reflexivity.
Defined.

Lemma diagnose_first_error (Prefix : text)
      (before after : list DiagnosticInfo) (DI : DiagnosticInfo) :
  existsb is_error before = false ->
  is_error DI = true ->
  diagnose Prefix (before ++ DI :: after)
  = (report Prefix before ++ report_one Prefix DI, Exited 1%Z).
Proof.
  intros Hb HDI. induction before as [|D before IH].
  - cbn [app diagnose report].
    assert (E : handleDiagnostics Prefix DI
                = (report_one Prefix DI, Exited 1%Z)).
    { unfold is_error in HDI. unfold handleDiagnostics, report_one.
      destruct (getSeverity DI); try discriminate; reflexivity. }
    rewrite E. reflexivity.
  - cbn [existsb] in Hb. apply orb_false_iff in Hb. destruct Hb as [HD Hb].
    cbn [app diagnose report].
    assert (E : handleDiagnostics Prefix D = (report_one Prefix D, Ok true)).
    { unfold is_error in HD. unfold handleDiagnostics, report_one.
      destruct (getSeverity D); try discriminate; reflexivity. }
    rewrite E, bind_ok, (IH Hb). cbn [fst snd].
    rewrite <- app_assoc. reflexivity.
Qed.

(** When the loader reports a diagnostic of error severity while a module is
    loaded, the diagnostics up to and including that one are written to the
    error stream and the process ends with status 1: the later diagnostics
    are not reported, the module is not materialised, and no output is
    opened for it. *)
Theorem process_module_stops_at_error_diagnostic
        (MemoryBuffer BitcodeModule Module ModuleSummaryIndex : Type)
        (llvm : LLVM MemoryBuffer BitcodeModule Module ModuleSummaryIndex)
        (argv0 : text) (opts : Options)
        (InputFilename : text) (N I : nat) (MB : BitcodeModule)
        (before after : list DiagnosticInfo) (DI : DiagnosticInfo)
        (loaded : Expected Module) :
  PrintThinLTOIndexOnly opts = false ->
  getLazyModule llvm MB (MaterializeMetadata opts) (SetImporting opts)
  = (before ++ DI :: after, loaded) ->
  existsb is_error before = false ->
  is_error DI = true ->
  process_module llvm argv0 opts InputFilename N I MB
  = ([Call_getLazyModule] ++ report argv0 before ++ report_one argv0 DI,
     Exited 1%Z).
Proof.
  intros Hidx Hload Hb HDI. unfold process_module.
  rewrite Hidx. cbv [negb]. unfold in_context. rewrite Hload.
  cbn [fst snd]. rewrite (diagnose_first_error argv0 before after DI Hb HDI).
  reflexivity.
Qed.

Lemma process_module_stops_at_error_diagnostic_witness :
  process_module
    (faulty_llvm true None
       [a_warning; mkDiagnosticInfo DS_Error (txt "malformed block");
        a_warning])
    (txt "llvm-html") (no_options [txt "a.bc"]) (txt "a.bc") 1 0 toy_plain
  = ([Call_getLazyModule] ++ report (txt "llvm-html") [a_warning]
       ++ report_one (txt "llvm-html")
            (mkDiagnosticInfo DS_Error (txt "malformed block")),
     Exited 1%Z).
Proof.
  apply (process_module_stops_at_error_diagnostic _ _ _ _
           (faulty_llvm true None
              [a_warning; mkDiagnosticInfo DS_Error (txt "malformed block");
               a_warning])
           (txt "llvm-html") (no_options [txt "a.bc"]) (txt "a.bc") 1 0
           toy_plain [a_warning] [a_warning]
           (mkDiagnosticInfo DS_Error (txt "malformed block"))
           (Success toy_plain));
    reflexivity.
Defined.

(** ** The CSS inliner, over a whole text *)

Lemma inlineCSS_step (Out CSS p m r : text) :
  occurs (txt "$") CSS = false ->
  Regex.regex_search link_regex Out = Some (p, m, r) ->
  inlineCSS Out CSS = p ++ ReplacementString CSS ++ inlineCSS r CSS.
Proof.
  intros Hdollar E. unfold inlineCSS.
  rewrite (regex_replace_step Out _ p m r E).
  rewrite format_no_dollar by (apply ReplacementString_no_dollar, Hdollar).
  reflexivity.
Qed.

Lemma inlineCSS_clean (CSS : text) :
  occurs (txt "$") CSS = false ->
  occurs (txt "<link") CSS = false ->
  forall n Out, length Out < n ->
                has_placeholderb (inlineCSS Out CSS) = false.
Proof.
  intros Hdollar Hlink. induction n as [|n IH]; intros Out Hlen; [lia|].
  destruct (Regex.regex_search link_regex Out) as [[[p m] r]|] eqn:E.
  - rewrite (inlineCSS_step Out CSS p m r Hdollar E).
    pose proof (regex_search_shorter Out p m r E) as Hr.
    pose proof (regex_search_some Out p m r E) as (_ & H2 & H3 & _ & _).
    destruct H2 as (mid & -> & Hmid).
    apply replaced_has_no_placeholder with (X := mid ++ txt ">" ++ r).
    + apply gt_on_line_mid, Hmid.
    + rewrite <- !app_assoc in H3. exact H3.
    + exact Hlink.
    + apply IH. lia.
  - unfold inlineCSS. rewrite (regex_replace_no_match Out _ E).
    apply regex_search_none, E.
Qed.

(** When the CSS text holds neither [$] nor [<link], no placeholder is left
    in what the inliner writes, however many placeholders the body text
    holds; inlining the result again changes nothing. *)
Theorem inlineCSS_leaves_no_placeholder (Out CSS : text) :
  occurs (txt "$") CSS = false ->
  occurs (txt "<link") CSS = false ->
  ~ has_placeholder (inlineCSS Out CSS)
  /\ inlineCSS (inlineCSS Out CSS) CSS = inlineCSS Out CSS.
Proof.
  intros Hdollar Hlink.
  pose proof (inlineCSS_clean CSS Hdollar Hlink (S (length Out)) Out
                (Nat.lt_succ_diag_r _)) as Hclean.
  apply regex_search_none in Hclean. split.
  - apply no_placeholder_iff, Hclean.
  - unfold inlineCSS at 1. apply regex_replace_no_match, Hclean.
Qed.

Lemma inlineCSS_leaves_no_placeholder_witness :
  ~ has_placeholder
      (inlineCSS (txt "<link a>" ++ [NL] ++ txt "x<link b>y") (txt "p{}"))
  /\ inlineCSS
       (inlineCSS (txt "<link a>" ++ [NL] ++ txt "x<link b>y") (txt "p{}"))
       (txt "p{}")
     = inlineCSS (txt "<link a>" ++ [NL] ++ txt "x<link b>y") (txt "p{}").
Proof.
  apply inlineCSS_leaves_no_placeholder; reflexivity.
Defined.

(** ** The CSS inliner works line by line *)

Lemma strip_prefix_line (pre a b : text) :
  ~ In NL pre ->
  strip_prefix pre (a ++ NL :: b)
  = match strip_prefix pre a with
    | Some t => Some (t ++ NL :: b)
    | None => None
    end.
Proof.
  revert a. induction pre as [|c pre IH]; intros a Hpre; [reflexivity|].
  assert (Hc : Ascii.eqb NL c = false).
  { apply Ascii.eqb_neq. intros E. apply Hpre. left. symmetry. exact E. }
  destruct a as [|x a]; cbn [app strip_prefix].
  - rewrite Hc. reflexivity.
  - destruct (Ascii.eqb x c); [|reflexivity].
    apply IH. intros H. apply Hpre. right. exact H.
Qed.

Lemma star_gt_line (t b : text) :
  star_gt (t ++ NL :: b)
  = match star_gt t with
    | Some (m, r) => Some (m, r ++ NL :: b)
    | None => None
    end.
Proof.
  induction t as [|x t IH].
  - cbn [app]. rewrite star_gt_cons. reflexivity.
  - cbn [app]. rewrite !star_gt_cons, IH.
    destruct (Regex.is_line_terminator x); [reflexivity|].
    destruct (star_gt t) as [[m r]|]; [reflexivity|].
    destruct (Ascii.eqb x ">"); reflexivity.
Qed.

Lemma match_at_link_line (a b : text) :
  Regex.match_at link_regex (a ++ NL :: b)
  = match Regex.match_at link_regex a with
    | Some (m, r) => Some (m, r ++ NL :: b)
    | None => None
    end.
Proof.
  rewrite !match_at_link, strip_prefix_line.
  - destruct (strip_prefix (txt "<link") a) as [t|]; [|reflexivity].
    rewrite star_gt_line. destruct (star_gt t) as [[m r]|]; reflexivity.
  - cbn. intros H. repeat (destruct H as [H | H]; [discriminate|]).
    exact H.
Qed.

Lemma regex_search_cons (pat : list Regex.atom) (x : ascii) (s : text) :
  Regex.regex_search pat (x :: s)
  = match Regex.match_at pat (x :: s) with
    | Some (m, r) => Some ([], m, r)
    | None =>
        match Regex.regex_search pat s with
        | Some (p, m, r) => Some (x :: p, m, r)
        | None => None
        end
    end.
Proof. reflexivity. Qed.

Lemma regex_search_line (a b : text) :
  Regex.regex_search link_regex (a ++ NL :: b)
  = match Regex.regex_search link_regex a with
    | Some (p, m, r) => Some (p, m, r ++ NL :: b)
    | None =>
        match Regex.regex_search link_regex b with
        | Some (p, m, r) => Some (a ++ NL :: p, m, r)
        | None => None
        end
    end.
Proof.
  induction a as [|x a IH].
  - assert (Hm : Regex.match_at link_regex (NL :: b) = None)
      by exact (match_at_link_line [] b).
    cbn [app]. rewrite regex_search_cons, Hm.
    destruct (Regex.regex_search link_regex b) as [[[p m] r]|];
      reflexivity.
  - change ((x :: a) ++ NL :: b) with (x :: (a ++ NL :: b)).
    rewrite !regex_search_cons.
    change (x :: (a ++ NL :: b)) with ((x :: a) ++ NL :: b).
    rewrite match_at_link_line.
    destruct (Regex.match_at link_regex (x :: a)) as [[m r]|];
      [reflexivity|].
    rewrite IH.
    destruct (Regex.regex_search link_regex a) as [[[p m] r]|];
      [reflexivity|].
    destruct (Regex.regex_search link_regex b) as [[[p m] r]|]; reflexivity.
Qed.

(** A line terminator is never part of a placeholder, so a text is inlined
    line by line: when the CSS text holds no [$], what is written for two
    texts joined by a newline is what is written for each, joined by the
    newline. *)
Theorem inlineCSS_line_by_line (a b CSS : text) :
  occurs (txt "$") CSS = false ->
  inlineCSS (a ++ NL :: b) CSS = inlineCSS a CSS ++ NL :: inlineCSS b CSS.
Proof.
  intros Hdollar.
  assert (H : forall n a, length a < n ->
                inlineCSS (a ++ NL :: b) CSS
                = inlineCSS a CSS ++ NL :: inlineCSS b CSS).
  { clear a. induction n as [|n IH]; intros a Hlen; [lia|].
    pose proof (regex_search_line a b) as Hline.
    destruct (Regex.regex_search link_regex a) as [[[p m] r]|] eqn:Ea.
    - rewrite (inlineCSS_step _ CSS p m (r ++ NL :: b) Hdollar Hline).
      rewrite (inlineCSS_step a CSS p m r Hdollar Ea).
      apply regex_search_shorter in Ea.
      rewrite (IH r) by lia. rewrite <- !app_assoc. reflexivity.
    - assert (Ha : inlineCSS a CSS = a)
        by (unfold inlineCSS; apply regex_replace_no_match, Ea).
      rewrite Ha.
      destruct (Regex.regex_search link_regex b) as [[[p m] r]|] eqn:Eb.
      + rewrite (inlineCSS_step _ CSS _ m r Hdollar Hline).
        rewrite (inlineCSS_step b CSS p m r Hdollar Eb).
        rewrite <- !app_assoc. reflexivity.
      + assert (Hb : inlineCSS b CSS = b)
          by (unfold inlineCSS; apply regex_replace_no_match, Eb).
        rewrite Hb. unfold inlineCSS.
        apply regex_replace_no_match, Hline. }
  apply (H (S (length a))). lia.
Qed.

Lemma inlineCSS_line_by_line_witness :
  inlineCSS (txt "<head><link rel=x>" ++ NL :: txt "<body><link") (txt "a{}")
  = inlineCSS (txt "<head><link rel=x>") (txt "a{}")
      ++ NL :: inlineCSS (txt "<body><link") (txt "a{}").
Proof.
  apply inlineCSS_line_by_line. reflexivity.
Defined.

(** ** Decimal numbers *)

Lemma string_of_uint_digits (d : Decimal.uint) :
  Forall (fun c => is_decimal_digit c = true)
         (list_ascii_of_string (NilEmpty.string_of_uint d)).
Proof.
  induction d; cbn [NilEmpty.string_of_uint list_ascii_of_string];
    constructor; solve [reflexivity | assumption].
Qed.

Lemma to_string_digits (n : nat) :
  Forall (fun c => is_decimal_digit c = true) (to_string n).
Proof. apply string_of_uint_digits. Qed.

Lemma digits_exclude (c : ascii) (s : text) :
  is_decimal_digit c = false ->
  Forall (fun c => is_decimal_digit c = true) s ->
  ~ In c s.
Proof.
  intros Hc Hs Hin. rewrite Forall_forall in Hs.
  specialize (Hs c Hin). congruence.
Qed.

(** Two texts cut at the first occurrence of a separator. *)
Lemma split_at_separator (sep : ascii) (a b x y : text) :
  ~ In sep a -> ~ In sep b ->
  a ++ sep :: x = b ++ sep :: y ->
  a = b /\ x = y.
Proof.
  revert b. induction a as [|c a IH]; intros [|d b] Ha Hb H;
    cbn [app] in H.
  - inversion H. split; reflexivity.
  - inversion H; subst d. exfalso. apply Hb. left. reflexivity.
  - inversion H; subst c. exfalso. apply Ha. left. reflexivity.
  - inversion H; subst d.
    destruct (IH b) as [-> ->]; try assumption.
    + intros Hin. apply Ha. right. exact Hin.
    + intros Hin. apply Hb. right. exact Hin.
    + split; reflexivity.
Qed.

(** ** The debug-location formatter is unambiguous *)

Lemma printDebugLoc_unfold (DL : DILocation) :
  printDebugLoc DL
  = to_string (getLine DL)
      ++ ":"%char :: to_string (getCol DL)
      ++ match DL with
         | InlinedLoc _ _ IDL => "@"%char :: printDebugLoc IDL
         | Loc _ _ => []
         end.
Proof.
  destruct DL; cbn [printDebugLoc getLine getCol];
    rewrite <- !app_assoc; reflexivity.
Qed.

(** Two locations with the same rendering are the same location: lines,
    columns and the whole inlined-at chain can be read back from what
    [printDebugLoc] writes. *)
Theorem printDebugLoc_injective (DL1 DL2 : DILocation) :
  printDebugLoc DL1 = printDebugLoc DL2 -> DL1 = DL2.
Proof.
  assert (Hcolon : forall n, ~ In ":"%char (to_string n))
    by (intros n; apply digits_exclude;
        [reflexivity | apply to_string_digits]).
  assert (Hat : forall n, ~ In "@"%char (to_string n))
    by (intros n; apply digits_exclude;
        [reflexivity | apply to_string_digits]).
  revert DL2. induction DL1 as [l1 c1 | l1 c1 IDL1 IH];
    intros [l2 c2 | l2 c2 IDL2] H;
    match type of H with
    | printDebugLoc ?a = printDebugLoc ?b =>
        rewrite (printDebugLoc_unfold a), (printDebugLoc_unfold b) in H
    end;
    cbn [getLine getCol] in H;
    apply split_at_separator in H; try apply Hcolon;
    destruct H as [Hl Hc]; apply to_string_inj in Hl; subst l2.
  - rewrite !app_nil_r in Hc. apply to_string_inj in Hc. subst. reflexivity.
  - exfalso. rewrite app_nil_r in Hc.
    apply (Hat c1). rewrite Hc. apply in_or_app. right. left. reflexivity.
  - exfalso. rewrite app_nil_r in Hc.
    apply (Hat c2). rewrite <- Hc. apply in_or_app. right. left. reflexivity.
  - apply split_at_separator in Hc; try apply Hat.
    destruct Hc as [Hc Hrest]. apply to_string_inj in Hc. subst c2.
    rewrite (IH IDL2 Hrest). reflexivity.
Qed.

Lemma printDebugLoc_injective_witness :
  InlinedLoc 12 3 (Loc 40 7) = InlinedLoc 12 3 (Loc 40 7).
Proof.
  apply printDebugLoc_injective. reflexivity.
Defined.

(** ** Annotations and lines *)

Lemma to_string_no_newline (n : nat) : ~ In NL (to_string n).
Proof.
  apply digits_exclude; [reflexivity | apply to_string_digits].
Qed.

Lemma printDebugLoc_no_newline (DL : DILocation) : ~ In NL (printDebugLoc DL).
Proof.
  induction DL as [l c | l c IDL IH]; rewrite printDebugLoc_unfold;
    cbn [getLine getCol]; intros H;
    apply in_app_or in H; destruct H as [H | H];
    try (apply (to_string_no_newline _ H));
    destruct H as [H | H]; try discriminate;
    apply in_app_or in H; destruct H as [H | H];
    try (apply (to_string_no_newline _ H)).
  - destruct H.
  - destruct H as [H | H]; [discriminate | apply (IH H)].
Qed.

(** The comment of a value stays on the line it is appended to: when the
    printed type and the name of the debug variable hold no newline, nothing
    that [printInfoComment] writes holds one. *)
Theorem printInfoComment_writes_no_newline (V : Value) :
  ~ In NL (printType (getType V)) ->
  match asInstruction V with
  | Some Inst =>
      match instKind Inst with
      | DbgDeclareInst Name | DbgValueInst Name => ~ In NL Name
      | OtherInst => True
      end
  | None => True
  end ->
  ~ In NL (emitted (printInfoComment V)).
Proof.
  destruct V as [[void ty] uses [[[DL|] [Name|Name|]]|]];
    cbn [getType printType asInstruction instKind];
    intros Hty Hname;
    destruct void;
    unfold printInfoComment;
    cbn [getType isVoidTy printType getNumUses asInstruction getDebugLoc
         instKind negb app emitted];
    rewrite ?app_nil_r;
    intros H;
    repeat (apply in_app_or in H; destruct H as [H | H]);
    try (apply (to_string_no_newline _ H));
    try (apply (printDebugLoc_no_newline _ H));
    try (apply (Hty H)); try (apply (Hname H));
    try (cbn in H; repeat (destruct H as [H | H]; [discriminate|]);
         exact H).
Qed.

Lemma printInfoComment_writes_no_newline_witness :
  ~ In NL (emitted (printInfoComment dbg_declare_x)).
Proof.
  apply printInfoComment_writes_no_newline; cbn; intuition discriminate.
Defined.

(** The annotation of a function is one whole line: no padding, a text
    without newline, then the newline. *)
Theorem emitFunctionAnnot_is_one_line (FNumUses : nat) :
  pad_count (emitFunctionAnnot FNumUses) = 0
  /\ exists line,
      emitted (emitFunctionAnnot FNumUses) = line ++ [NL]
      /\ ~ In NL line
      /\ line = txt "; [#uses=" ++ to_string FNumUses ++ txt "]".
Proof.
  split; [reflexivity|].
  exists (txt "; [#uses=" ++ to_string FNumUses ++ txt "]").
  split; [|split; [|reflexivity]].
  - cbn [emitFunctionAnnot emitted]. rewrite app_nil_r. reflexivity.
  - intros H. apply in_app_or in H. destruct H as [H | H].
    + cbn in H. repeat (destruct H as [H | H]; [discriminate|]). exact H.
    + apply in_app_or in H. destruct H as [H | H].
      * apply (to_string_no_newline _ H).
      * cbn in H. repeat (destruct H as [H | H]; [discriminate|]). exact H.
Qed.

(** ** The name of the output is never empty *)

Lemma app_not_nil_r (a b : text) : b <> [] -> a ++ b <> [].
Proof. intros Hb H. apply app_eq_nil in H. tauto. Qed.

(** Whatever the options, the input name and the module, the name given to
    [ToolOutputFile] is not the empty text. *)
Theorem FinalFilename_never_empty
        (opts : Options) (InputFilename : text) (N I : nat) :
  FinalFilename opts InputFilename N I <> [].
Proof.
  unfold FinalFilename.
  destruct (DontPrint opts).
  - cbn [empty txt list_ascii_of_string]. destruct (1 <? N); discriminate.
  - destruct (OutputFilename opts) as [|c o] eqn:EO; cbn [empty].
    + destruct (text_eqb InputFilename (txt "-")); [discriminate|].
      apply app_not_nil_r. discriminate.
    + destruct (1 <? N); discriminate.
Qed.

(** A name inferred from the name of a file ends with [".html"]; it is
    therefore never the standard-output sentinel ["-"]. *)
Theorem FinalFilename_inferred_is_html_file
        (opts : Options) (InputFilename : text) (N I : nat) :
  OutputFilename opts = [] ->
  DontPrint opts = false ->
  InputFilename <> txt "-" ->
  endswith (FinalFilename opts InputFilename N I) (txt ".html") = true
  /\ FinalFilename opts InputFilename N I <> txt "-".
Proof.
  intros HO HD Hin. apply text_eqb_neq in Hin.
  assert (E : exists stem,
             FinalFilename opts InputFilename N I = stem ++ txt ".html").
  { unfold FinalFilename. rewrite HO, HD. cbn [empty]. rewrite Hin.
    eexists. reflexivity. }
  destruct E as [stem E]. rewrite E. split.
  - apply endswith_app. exists stem. reflexivity.
  - intros H. destruct stem as [|c stem]; [discriminate|].
    inversion H as [[Hc Hs]]. destruct stem; discriminate.
Qed.

Lemma FinalFilename_inferred_is_html_file_witness :
  endswith (FinalFilename (no_options [txt "m.bc"]) (txt "m.bc") 3 2)
           (txt ".html") = true
  /\ FinalFilename (no_options [txt "m.bc"]) (txt "m.bc") 3 2 <> txt "-".
Proof.
  apply FinalFilename_inferred_is_html_file;
    [reflexivity | reflexivity | vm_compute; discriminate].
Defined.

(** ** The outputs of one input *)

Lemma outputs_opened_app (a b : list event) :
  outputs_opened (a ++ b) = outputs_opened a ++ outputs_opened b.
Proof.
  induction a as [|e a IH]; [reflexivity|].
  destruct e; cbn [app outputs_opened]; rewrite IH; reflexivity.
Qed.

Lemma outputs_opened_none (t : list event) :
  Forall (fun e => match e with OpenOutput _ => False | _ => True end) t ->
  outputs_opened t = [].
Proof.
  induction 1 as [|e t He _ IH]; [reflexivity|].
  destruct e; cbn [outputs_opened]; try exact IH. contradiction.
Qed.

Lemma opens_only_bind {A B} (F : text) (m : Run A) (f : A -> Run B) :
  run_holds (fun e => match e with OpenOutput _ => False | _ => True end) m ->
  (forall a, opens_only F (f a)) -> opens_only F (bind m f).
Proof.
  intros [Hq _] Hf. apply outputs_opened_none in Hq.
  destruct m as [t [a | c]]; cbn [fst] in Hq.
  - rewrite bind_ok. unfold opens_only. cbn [fst snd].
    rewrite outputs_opened_app, Hq. exact (Hf a).
  - rewrite bind_exited. right. split; [exact Hq | exists c; reflexivity].
Qed.

Section OutputsOfAnInput.

Variables MemoryBuffer BitcodeModule Module ModuleSummaryIndex : Type.
Variable llvm : LLVM MemoryBuffer BitcodeModule Module ModuleSummaryIndex.
Variable argv0 : text.
Variable opts : Options.

Ltac unopened_run :=
  repeat first
    [ apply run_holds_ret | apply run_holds_exit1
    | apply ExitOnErr_holds; intros; exact Logic.I
    | apply in_context_holds; intros; exact Logic.I
    | apply run_holds_emit; exact Logic.I
    | apply run_holds_bind; [| intros ? ] ].

Lemma process_module_opens_only (InputFilename : text) (N I : nat)
      (MB : BitcodeModule) :
  opens_only (FinalFilename opts InputFilename N I)
             (process_module llvm argv0 opts InputFilename N I MB).
Proof.
  unfold process_module.
  apply opens_only_bind.
  { destruct (negb (PrintThinLTOIndexOnly opts)); [|apply run_holds_ret].
    apply run_holds_bind; [apply run_holds_emit; exact Logic.I | intros _].
    apply run_holds_bind;
      [apply in_context_holds; intros; exact Logic.I | intros e].
    apply run_holds_bind;
      [apply ExitOnErr_holds; intros; exact Logic.I | intros M].
    destruct (MaterializeMetadata opts); unopened_run. }
  intros M.
  apply opens_only_bind;
    [apply ExitOnErr_holds; intros; exact Logic.I | intros LTOInfo].
  apply opens_only_bind.
  { destruct (HasSummary LTOInfo); unopened_run. }
  intros Index. cbv zeta.
  set (F := FinalFilename opts InputFilename N I).
  rewrite bind_emit. left.
  destruct (ToolOutputFile_open llvm F); [reflexivity|].
  destruct (DontPrint opts), M as [M|], Index as [Index|]; reflexivity.
Qed.

Lemma for_modules_opens_in_order (InputFilename : text) (N : nat)
      (Mods : list BitcodeModule) :
  forall I,
  exists rest,
    map (FinalFilename opts InputFilename N) (seq I (length Mods))
    = outputs_opened (fst (for_modules llvm argv0 opts InputFilename N I Mods))
        ++ rest
    /\ forall u,
        snd (for_modules llvm argv0 opts InputFilename N I Mods) = Ok u ->
        rest = [].
Proof.
  induction Mods as [|MB Mods IH]; intros I;
    cbn [for_modules length seq map].
  - exists []. split; reflexivity.
  - pose proof (process_module_opens_only InputFilename N I MB) as Hone.
    destruct (process_module llvm argv0 opts InputFilename N I MB)
      as [t [u | c]]; unfold opens_only in Hone; cbn [fst snd] in Hone.
    + destruct Hone as [Hone | [_ [code Hcode]]]; [|discriminate].
      rewrite bind_ok. cbn [fst snd].
      destruct (IH (S I)) as (rest & Hrest & Hok).
      exists rest. rewrite outputs_opened_app, Hone. cbn [app].
      split; [f_equal; exact Hrest | exact Hok].
    + rewrite bind_exited. cbn [fst snd].
      destruct Hone as [Hone | [Hone _]]; rewrite Hone.
      * exists (map (FinalFilename opts InputFilename N)
                    (seq (S I) (length Mods))).
        split; [reflexivity | discriminate].
      * eexists. split; [reflexivity | discriminate].
Qed.

End OutputsOfAnInput.

(** For an input that is read and decoded, the outputs are opened in the
    order of the modules, under the names [FinalFilename] gives to the
    indices 0, 1, ... with [N] the number of modules of the container: the
    names opened are an initial part of that list, and the whole list when
    the input is treated to the end. *)
Theorem process_input_opens_outputs_in_order
        (MemoryBuffer BitcodeModule Module ModuleSummaryIndex : Type)
        (llvm : LLVM MemoryBuffer BitcodeModule Module ModuleSummaryIndex)
        (argv0 : text) (opts : Options) (InputFilename : text)
        (MB : MemoryBuffer) (Mods : list BitcodeModule) :
  getFileOrSTDIN llvm InputFilename = Success MB ->
  getBitcodeFileContents llvm MB = Success Mods ->
  exists rest,
    map (FinalFilename opts InputFilename (length Mods))
        (seq 0 (length Mods))
    = outputs_opened (fst (process_input llvm argv0 opts InputFilename))
        ++ rest
    /\ forall u,
        snd (process_input llvm argv0 opts InputFilename) = Ok u ->
        rest = [].
Proof.
  intros Hread Hdecode.
  destruct (for_modules_opens_in_order _ _ _ _ llvm argv0 opts InputFilename
              (length Mods) Mods 0) as (rest & Hrest & Hok).
  exists rest. unfold process_input. rewrite Hread, Hdecode.
  cbv [ExitOnErr]. rewrite bind_emit, bind_ret_l. cbv zeta.
  destruct (text_eqb (OutputFilename opts) (txt "-") && (1 <? length Mods));
    [rewrite bind_emit | rewrite bind_ret_l];
    cbn [fst snd outputs_opened]; split; assumption.
Qed.

Lemma process_input_opens_outputs_in_order_witness :
  exists rest,
    map (FinalFilename (no_options [txt "a.bc"]) (txt "a.bc") 2) (seq 0 2)
    = outputs_opened
        (fst (process_input
                (toy_llvm (fun _ => Some [toy_plain; toy_with_summary]))
                (txt "llvm-html") (no_options [txt "a.bc"]) (txt "a.bc")))
        ++ rest
    /\ forall u,
        snd (process_input
               (toy_llvm (fun _ => Some [toy_plain; toy_with_summary]))
               (txt "llvm-html") (no_options [txt "a.bc"]) (txt "a.bc"))
        = Ok u ->
        rest = [].
Proof.
  apply (process_input_opens_outputs_in_order _ _ _ _
           (toy_llvm (fun _ => Some [toy_plain; toy_with_summary]))
           (txt "llvm-html") (no_options [txt "a.bc"]) (txt "a.bc")
           [toy_plain; toy_with_summary] [toy_plain; toy_with_summary]);
    reflexivity.
Defined.
